(** * opencode-azure-setup: endpoint parsing, configuration merge and the
      setup session, verified over a shallow embedding of [src/index.js].

    The embedding follows the source function by function.  JavaScript
    strings are carried as [string]; the values read from the configuration
    file are carried as a tree type [JSON] whose objects keep their keys in
    enumeration order; the session ([main]) is a program in a small monad
    that threads the terminal answers, the network answers and the file
    system, and records every effect it performs. *)

From Stdlib Require Import String Ascii List Bool Arith Lia DecimalString.
Import ListNotations.
Local Open Scope string_scope.

(* ===================================================================== *)
(** ** Strings as the source uses them *)
(* ===================================================================== *)

Module Js.

(** [s.startsWith(p)] *)
Definition startsWith (s p : string) : bool := String.prefix p s.

(** [s.endsWith(p)] *)
Definition endsWith (s p : string) : bool :=
  if Nat.leb (String.length p) (String.length s)
  then String.eqb (substring (String.length s - String.length p)
                             (String.length p) s) p
  else false.

(** [s.replace(/\/$/, '')]: one final slash is dropped, if there is one. *)
Fixpoint strip_trailing_slash (s : string) : string :=
  match s with
  | EmptyString => EmptyString
  | String c EmptyString => if Ascii.eqb c "/" then EmptyString else s
  | String c s' => String c (strip_trailing_slash s')
  end.

(** [s.split('/')]: never the empty list. *)
Fixpoint split_slash (s : string) : list string :=
  match s with
  | EmptyString => [EmptyString]
  | String c s' =>
      if Ascii.eqb c "/" then EmptyString :: split_slash s'
      else match split_slash s' with
           | h :: t => String c h :: t
           | [] => [String c EmptyString]
           end
  end.

(** [parts.join('/')] *)
Definition join_slash (parts : list string) : string := String.concat "/" parts.

(** [parts.indexOf(x)]: [None] stands for [-1]. *)
Fixpoint indexOf (x : string) (parts : list string) : option nat :=
  match parts with
  | [] => None
  | p :: rest =>
      if String.eqb p x then Some 0
      else option_map S (indexOf x rest)
  end.

(** [s.includes(p)] *)
Fixpoint includes (s p : string) : bool :=
  String.prefix p s ||
  match s with
  | EmptyString => false
  | String _ s' => includes s' p
  end.

(** [s.slice(0, n)] for a non-negative [n]. *)
Definition slice_to (n : nat) (s : string) : string := substring 0 n s.

(** [s.slice(-n)] for a positive [n]: the last [n] characters, or all of
    [s] when it is shorter. *)
Definition slice_last (n : nat) (s : string) : string :=
  substring (String.length s - n) n s.

(** [c.toLowerCase()] on one character code below 256: the ASCII capitals
    and the Latin-1 capitals (all of 192..222 but the multiplication sign)
    move up by 32. *)
Definition lower_ascii (c : ascii) : ascii :=
  let n := nat_of_ascii c in
  if (Nat.leb 65 n && Nat.leb n 90)
     || (Nat.leb 192 n && Nat.leb n 222 && negb (Nat.eqb n 215))
  then ascii_of_nat (n + 32) else c.

Fixpoint toLowerCase (s : string) : string :=
  match s with
  | EmptyString => EmptyString
  | String c s' => String (lower_ascii c) (toLowerCase s')
  end.

(** A string is truthy when it is not empty. *)
Definition nonempty (s : string) : bool :=
  match s with EmptyString => false | _ => true end.

(** The longest prefix without a slash: what [[^/]+] consumes. *)
Fixpoint take_segment (s : string) : string :=
  match s with
  | EmptyString => EmptyString
  | String c s' => if Ascii.eqb c "/" then EmptyString else String c (take_segment s')
  end.

(** [s.match(/\/deployments\/([^/]+)/)]: the first capture, at the
    leftmost position where the marker is followed by a character other
    than a slash. *)
Fixpoint match_deployment (s : string) : option string :=
  match s with
  | EmptyString => None
  | String _ s' =>
      if String.prefix "/deployments/" s
         && nonempty (take_segment (substring 13 (String.length s) s))
      then Some (take_segment (substring 13 (String.length s) s))
      else match_deployment s'
  end.

End Js.

(* ===================================================================== *)
(** ** The platform's URL objects *)
(* ===================================================================== *)

Module Url.

(** What [new URL(input)] holds, field by field as the URL standard names
    them.  [authority] is the serialised credentials, host and port
    ([None] for a URL without a host); [opaque] marks a URL whose path is a
    single opaque string ([mailto:x], [host.example:443]); [query] and
    [fragment] are [None] when absent; [searchParams] are the decoded
    name/value pairs of the query, in order. *)
Record t : Type := mk {
  scheme : string;
  authority : option string;
  opaque : bool;
  pathname : string;
  query : option string;
  fragment : option string;
  searchParams : list (string * string)
}.

(** [url.searchParams.get(name)]: the value of the first pair of that
    name. *)
Fixpoint params_get (name : string) (ps : list (string * string)) : option string :=
  match ps with
  | [] => None
  | (k, v) :: rest => if String.eqb k name then Some v else params_get name rest
  end.

Definition searchParams_get (u : t) (name : string) : option string :=
  params_get name (searchParams u).

(** [url.pathname = p].  The setter leaves a URL with an opaque path as it
    is.  Otherwise it parses [p] as a path; every [p] the source assigns is
    either ["/openai"] or a slash-separated prefix of the URL's own
    pathname, which the path parser returns as it is. *)
Definition set_pathname (u : t) (p : string) : t :=
  if opaque u then u
  else mk (scheme u) (authority u) (opaque u) p (query u) (fragment u)
          (searchParams u).

(** Dropping the spaces an opaque path ends with. *)
Fixpoint strip_trailing_spaces (s : string) : string :=
  match s with
  | EmptyString => EmptyString
  | String c s' =>
      match strip_trailing_spaces s' with
      | EmptyString => if Ascii.eqb c " " then EmptyString else String c EmptyString
      | r => String c r
      end
  end.

(** [url.search = '']: the query becomes absent and the parameter list
    empty; an opaque path then loses its trailing spaces when there is no
    fragment either. *)
Definition clear_search (u : t) : t :=
  let p := if opaque u && match fragment u with Some _ => false | None => true end
           then strip_trailing_spaces (pathname u) else pathname u in
  mk (scheme u) (authority u) (opaque u) p None (fragment u) [].

(** [url.toString()], the URL serialiser: scheme, [//] and the authority
    when there is a host, [/.] before a path that would otherwise read as
    an authority, the path, [?] and the query, [#] and the fragment. *)
Definition toString (u : t) : string :=
  scheme u ++ ":" ++
  match authority u with
  | Some a => "//" ++ a
  | None => if negb (opaque u) && String.prefix "//" (pathname u) then "/." else ""
  end ++
  pathname u ++
  match query u with Some q => "?" ++ q | None => "" end ++
  match fragment u with Some f => "#" ++ f | None => "" end.

(** *** A reference constructor

    [parse] answers as [new URL(input)] does on two families of inputs,
    taken without leading or trailing spaces and without control
    characters (the constructor removes those first):
    - an input that does not begin with a scheme (a letter, then letters,
      digits, [+], [-] or [.], then a colon) is rejected, since no base
      URL is given;
    - an input with a scheme is read when it is written in the plain
      characters below and needs no normalisation: [http] and [https]
      followed by [//], a lower-case dotted host name whose last label
      begins with a letter, then optional path, query and fragment; or
      any other scheme but [ws], [wss], [ftp] and [file] followed by an
      opaque path (one that does not begin with a slash).
    A space in the host is a forbidden host code point, so that input is
    rejected too.  Every other input with a scheme lies outside what this
    constructor covers and is answered [None]; it is applied below at
    inputs of the two families only. *)

Definition code (c : ascii) : nat := nat_of_ascii c.
Definition between (lo hi : nat) (c : ascii) : bool :=
  Nat.leb lo (code c) && Nat.leb (code c) hi.
Definition is_alpha (c : ascii) : bool := between 65 90 c || between 97 122 c.
Definition is_lower (c : ascii) : bool := between 97 122 c.
Definition is_digit (c : ascii) : bool := between 48 57 c.
Definition one_of (cs : string) (c : ascii) : bool :=
  existsb (Ascii.eqb c) (list_ascii_of_string cs).

Definition scheme_char (c : ascii) : bool := is_alpha c || is_digit c || one_of "+-." c.
Definition host_char (c : ascii) : bool := is_lower c || is_digit c || one_of "." c.
Definition path_char (c : ascii) : bool := is_alpha c || is_digit c || one_of "-._~/" c.
Definition query_char (c : ascii) : bool := is_alpha c || is_digit c || one_of "-._~/=&:" c.

Fixpoint all_chars (f : ascii -> bool) (s : string) : bool :=
  match s with
  | EmptyString => true
  | String c s' => f c && all_chars f s'
  end.

(** The longest prefix of characters satisfying [f], and the rest. *)
Fixpoint span (f : ascii -> bool) (s : string) : string * string :=
  match s with
  | EmptyString => (EmptyString, EmptyString)
  | String c s' =>
      if f c then let (a, b) := span f s' in (String c a, b)
      else (EmptyString, s)
  end.

(** [s.split(sep)] for a one-character separator. *)
Fixpoint split_on (sep : ascii) (s : string) : list string :=
  match s with
  | EmptyString => [EmptyString]
  | String c s' =>
      if Ascii.eqb c sep then EmptyString :: split_on sep s'
      else match split_on sep s' with
           | h :: t => String c h :: t
           | [] => [String c EmptyString]
           end
  end.

(** The name/value pairs of a query without escapes: pieces between [&],
    empty pieces skipped, each cut at its first [=]. *)
Definition pairs_of_query (q : string) : list (string * string) :=
  flat_map (fun piece =>
    match piece with
    | EmptyString => []
    | _ => let (k, r) := span (fun c => negb (Ascii.eqb c "=")) piece in
           [(k, match r with String _ v => v | EmptyString => EmptyString end)]
    end) (split_on "&" q).

(** Query and fragment of what follows the path. *)
Definition parse_tail (r : string) : option (option string * option string) :=
  let (q, f) :=
    match r with
    | String "?" r1 =>
        let (q, r2) := span (fun c => negb (Ascii.eqb c "#")) r1 in (Some q, r2)
    | _ => (None, r)
    end in
  let fr := match f with String "#" f1 => Some f1 | _ => None end in
  let ok_q := match q with Some q0 => all_chars query_char q0 | None => true end in
  let ok_f := match fr with Some f0 => all_chars query_char f0 | None => true end in
  if ok_q && ok_f then Some (q, fr) else None.

Definition last_label_ok (host : string) : bool :=
  match rev (split_on "." host) with
  | String c _ :: _ => is_lower c
  | _ => false
  end.

Definition no_dot_segment (path : string) : bool :=
  forallb (fun seg => negb (String.eqb seg "." || String.eqb seg ".."))
          (split_on "/" path).

Definition parse (input : string) : option t :=
  let (sch, rest) := span scheme_char input in
  match sch, rest with
  | String c0 _, String ":" rest1 =>
      if negb (is_alpha c0) then None else
      let sch := Js.toLowerCase sch in
      if String.eqb sch "http" || String.eqb sch "https" then
        match rest1 with
        | String "/" (String "/" rest2) =>
            let (host, r) := span host_char rest2 in
            let (path, tail) :=
              span (fun c => negb (Ascii.eqb c "?" || Ascii.eqb c "#")) r in
            if negb (Js.nonempty host) then None
            else if negb (forallb Js.nonempty (split_on "." host) && last_label_ok host)
            then None
            else if negb (all_chars path_char path && no_dot_segment path
                          && (negb (Js.nonempty path) || String.prefix "/" path))
            then None
            else
              match parse_tail tail with
              | Some (q, f) =>
                  Some (mk sch (Some host) false
                           (if Js.nonempty path then path else "/") q f
                           (match q with Some q0 => pairs_of_query q0 | None => [] end))
              | None => None
              end
        | _ => None
        end
      else if String.eqb sch "ws" || String.eqb sch "wss"
              || String.eqb sch "ftp" || String.eqb sch "file" then None
      else
        let (path, tail) :=
          span (fun c => negb (Ascii.eqb c "?" || Ascii.eqb c "#")) rest1 in
        if String.prefix "/" path || negb (all_chars path_char path) then None
        else
          match parse_tail tail with
          | Some (q, f) =>
              Some (mk sch None true path q f
                       (match q with Some q0 => pairs_of_query q0 | None => [] end))
          | None => None
          end
  | _, _ => None
  end.

End Url.

(* ===================================================================== *)
(** ** The endpoint parser *)
(* ===================================================================== *)

(** The pair [fetchDefaults] returns. *)
Record Defaults : Type := mkDefaults {
  d_deployment : string;
  d_apiVersion : string
}.

(** The object [parseAzureEndpoint] returns. *)
Record Endpoint : Type := mkEndpoint {
  baseUrl : string;
  deployment : string;
  apiVersion : string
}.

(** The hard-coded pair [fetchDefaults] starts from. *)
Definition hardcoded_defaults : Defaults :=
  mkDefaults "model-router" "2025-01-01-preview".

Section Parser.

(** [new URL(input)]: [None] when the constructor throws. *)
Variable newURL : string -> option Url.t.

(** The path the [try] branch assigns: the parts up to and including the
    first [openai], joined again, or [/openai]. *)
Definition base_path (pathname : string) : string :=
  let pathParts := Js.split_slash pathname in
  match Js.indexOf "openai" pathParts with
  | Some openaiIndex => Js.join_slash (firstn (openaiIndex + 1) pathParts)
  | None => "/openai"
  end.

(** The [try] branch, for a URL that parsed. *)
Definition parse_url_branch (url : Url.t) (defaults : Defaults) : Endpoint :=
  let deployment :=
    match Js.match_deployment (Url.pathname url) with
    | Some m => m
    | None => d_deployment defaults
    end in
  let apiVersion :=
    match Url.searchParams_get url "api-version" with
    | Some v => if Js.nonempty v then v else d_apiVersion defaults
    | None => d_apiVersion defaults
    end in
  let url1 := Url.set_pathname url (base_path (Url.pathname url)) in
  let url2 := Url.clear_search url1 in
  mkEndpoint (Js.strip_trailing_slash (Url.toString url2)) deployment apiVersion.

(** The [catch] branch, for an input the constructor rejected. *)
Definition parse_host_branch (input : string) (defaults : Defaults) : Endpoint :=
  let cleaned := Js.strip_trailing_slash input in
  let cleaned1 :=
    if negb (Js.startsWith cleaned "https://") then "https://" ++ cleaned
    else cleaned in
  let cleaned2 :=
    if negb (Js.endsWith cleaned1 "/openai") then cleaned1 ++ "/openai"
    else cleaned1 in
  mkEndpoint cleaned2 (d_deployment defaults) (d_apiVersion defaults).

Definition parseAzureEndpoint (input : string) (defaults : Defaults) : Endpoint :=
  match newURL input with
  | Some url => parse_url_branch url defaults
  | None => parse_host_branch input defaults
  end.

End Parser.

(* ===================================================================== *)
(** ** Configuration documents *)
(* ===================================================================== *)

(** The values [JSON.parse] builds and the program updates in place.  An
    object keeps its properties in the order [Object.keys] lists them.  A
    number is carried as the text [String(n)] gives for it.  An array also
    carries the named properties assigned to it, which [JSON.stringify]
    does not write.  [JNull] is [null]; [undefined], the result of reading
    a property that is not there, is [None] in an [option JSON]. *)
#[local] Set Warnings "-register-all".
Inductive JSON : Type :=
| JNull
| JBool (b : bool)
| JNum (text : string)
| JStr (s : string)
| JArr (items : list JSON) (props : list (string * JSON))
| JObj (fields : list (string * JSON)).

Module Doc.

(** Truthiness, as [if], [!], [||] and [&&] test it. *)
Definition truthy (v : JSON) : bool :=
  match v with
  | JNull => false
  | JBool b => b
  | JNum t => negb (String.eqb t "0")
  | JStr s => Js.nonempty s
  | JArr _ _ => true
  | JObj _ => true
  end.

Definition truthy_opt (o : option JSON) : bool :=
  match o with Some v => truthy v | None => false end.

(** [a || b] *)
Definition or_else (a : option JSON) (b : JSON) : JSON :=
  match a with
  | Some v => if truthy v then v else b
  | None => b
  end.

Fixpoint assoc_get (k : string) (fs : list (string * JSON)) : option JSON :=
  match fs with
  | [] => None
  | (k', v) :: rest => if String.eqb k' k then Some v else assoc_get k rest
  end.

(** Assignment to a property whose name is not an integer: a property that
    exists keeps its place, a new one goes last. *)
Fixpoint assoc_set (k : string) (x : JSON) (fs : list (string * JSON))
  : list (string * JSON) :=
  match fs with
  | [] => [(k, x)]
  | (k', v) :: rest =>
      if String.eqb k' k then (k', x) :: rest
      else (k', v) :: assoc_set k x rest
  end.

(** [v.k] for a value that is neither [null] nor [undefined] and a name
    [k] that is neither an index nor [length] (every name the program
    reads is such a name): own properties of objects and arrays, nothing on
    the other values. *)
Definition get_prop (v : JSON) (k : string) : option JSON :=
  match v with
  | JObj fs => assoc_get k fs
  | JArr _ props => assoc_get k props
  | _ => None
  end.

(** [o?.k] *)
Definition opt_prop (o : option JSON) (k : string) : option JSON :=
  match o with
  | None | Some JNull => None
  | Some v => get_prop v k
  end.

(** [v.k = x] in strict mode: [None] is the [TypeError] raised when [v] is
    [null] or a primitive value. *)
Definition set_prop (v : JSON) (k : string) (x : JSON) : option JSON :=
  match v with
  | JObj fs => Some (JObj (assoc_set k x fs))
  | JArr items props => Some (JArr items (assoc_set k x props))
  | _ => None
  end.

Definition string_of_nat (n : nat) : string :=
  NilZero.string_of_uint (Nat.to_uint n).

(** [Object.keys(v)] for a value that is not [null]: indices first. *)
Definition object_keys (v : JSON) : list string :=
  match v with
  | JObj fs => map fst fs
  | JArr items props => map string_of_nat (seq 0 (List.length items)) ++ map fst props
  | JStr s => map string_of_nat (seq 0 (String.length s))
  | _ => []
  end.

(** [String(v)], as a template literal or [+] with a string converts:
    an array joins its items with commas, [null] items reading as
    nothing. *)
Fixpoint to_js_string (v : JSON) : string :=
  match v with
  | JNull => "null"
  | JBool true => "true"
  | JBool false => "false"
  | JNum t => t
  | JStr s => s
  | JObj _ => "[object Object]"
  | JArr items _ =>
      String.concat ","
        (map (fun x => match x with JNull => "" | _ => to_js_string x end) items)
  end.

End Doc.

(** What [getExistingAzureSettings] returns.  The three option values are
    handed on as they are stored, whatever their type; the deployment is a
    key, hence a string. *)
Record Settings : Type := mkSettings {
  s_baseUrl : JSON;
  s_apiKey : JSON;
  s_deployment : string;
  s_apiVersion : JSON
}.

Definition getExistingAzureSettings (config : JSON) : option Settings :=
  let options :=
    Doc.opt_prop (Doc.opt_prop (Doc.opt_prop (Some config) "provider") "azure")
                 "options" in
  if negb (Doc.truthy_opt options) then None
  else
    match Doc.opt_prop (Doc.opt_prop (Some config) "provider") "azure", options with
    | Some azure, Some opts =>
        let modelName :=
          match Doc.object_keys (Doc.or_else (Doc.get_prop azure "models") (JObj [])) with
          | k :: _ => if Js.nonempty k then k else "model-router"
          | [] => "model-router"
          end in
        Some (mkSettings
                (Doc.or_else (Doc.get_prop opts "baseURL") (JStr ""))
                (Doc.or_else (Doc.get_prop opts "apiKey") (JStr ""))
                modelName
                (Doc.or_else (Doc.get_prop opts "apiVersion") (JStr "2025-01-01-preview")))
    | _, _ => None
    end.

(** The provider entry [main] builds. *)
Definition azure_entry (baseUrl apiKey : JSON) (deployment : string)
    (apiVersion : JSON) : JSON :=
  JObj [ ("npm", JStr "@ai-sdk/azure");
         ("name", JStr "Azure OpenAI");
         ("options", JObj [ ("baseURL", baseUrl);
                            ("apiKey", apiKey);
                            ("useDeploymentBasedUrls", JBool true);
                            ("apiVersion", apiVersion) ]);
         ("models", JObj [ (deployment,
                            JObj [ ("name", JStr deployment);
                                   ("limit", JObj [ ("context", JNum "200000");
                                                    ("output", JNum "16384") ]) ]) ]) ].

(** The merge step of [main]; [None] is a [TypeError].  [config.provider]
    names the very object that is stored in [config], so the assignment of
    [azure] shows in [config]. *)
Definition merge (existingConfig : JSON) (baseUrl apiKey : JSON)
    (deployment : string) (apiVersion : JSON) : option JSON :=
  let config := if Doc.truthy existingConfig then existingConfig else JObj [] in
  match Doc.set_prop config "$schema" (JStr "https://opencode.ai/config.json") with
  | None => None
  | Some c1 =>
  match Doc.set_prop c1 "model" (JStr ("azure/" ++ deployment)) with
  | None => None
  | Some c2 =>
  let provider := Doc.or_else (Doc.get_prop c2 "provider") (JObj []) in
  match Doc.set_prop provider "azure" (azure_entry baseUrl apiKey deployment apiVersion) with
  | None => None
  | Some provider' => Doc.set_prop c2 "provider" provider'
  end end end.

(** What [JSON.parse] reads back from [JSON.stringify(v, null, 2)]: [v]
    without the named properties of its arrays. *)
Fixpoint persisted (v : JSON) : JSON :=
  match v with
  | JArr items _ => JArr (map persisted items) []
  | JObj fs => JObj (map (fun kv => (fst kv, persisted (snd kv))) fs)
  | _ => v
  end.

(** The configuration file: absent, present with a text that is not JSON,
    or present with the text of a document. *)
Inductive File : Type :=
| NoFile
| Garbage (text : string)
| Document (v : JSON).

Definition loadExistingConfig (f : File) : JSON :=
  match f with
  | Document v => v
  | _ => JNull
  end.

(** [fs.writeFileSync(configPath, JSON.stringify(config, null, 2))] *)
Definition persist (config : JSON) : File := Document (persisted config).

(* ===================================================================== *)
(** ** The connectivity probe *)
(* ===================================================================== *)

(** What the network does with one request. *)
Inductive Net : Type :=
| Response (statusCode : nat) (data : string)
| ConnError (message : string)
| NoAnswer.

(** The object the promise of [testConnection] resolves to. *)
Record ProbeResult : Type := mkProbe {
  ok : bool;
  status : nat;
  body : string
}.

(** A header value [https.request] accepts: tab, or a character from
    space to tilde, or one from 128 up. *)
Definition header_char_ok (c : ascii) : bool :=
  let n := nat_of_ascii c in
  Nat.eqb n 9 || (Nat.leb 32 n && Nat.leb n 126) || Nat.leb 128 n.

Definition header_ok (v : string) : bool := Url.all_chars header_char_ok v.

(** The address [testConnection] builds from its arguments. *)
Definition probe_target (endpoint : JSON) (deployment : string) (apiVersion : JSON)
  : string :=
  Doc.to_js_string endpoint ++ "/deployments/" ++ deployment
  ++ "/chat/completions?api-version=" ++ Doc.to_js_string apiVersion.

Section Probe.

Variable newURL : string -> option Url.t.

(** Whether the promise executor runs to its end and the request is sent:
    [new URL] and [https.request] may throw before that. *)
Definition probe_sent (endpoint apiKey : JSON) (deployment : string)
    (apiVersion : JSON) : bool :=
  match newURL (probe_target endpoint deployment apiVersion) with
  | Some _ => header_ok (Doc.to_js_string apiKey)
  | None => false
  end.

(** [testConnection]: [None] when the promise is rejected, otherwise the
    value it resolves to, by the first of the three callbacks that fires:
    the end of a response, a connection error, or the 15 second timer. *)
Definition testConnection (endpoint apiKey : JSON) (deployment : string)
    (apiVersion : JSON) (net : Net) : option ProbeResult :=
  if probe_sent endpoint apiKey deployment apiVersion then
    Some match net with
         | Response statusCode data => mkProbe (Nat.eqb statusCode 200) statusCode data
         | ConnError message => mkProbe false 0 message
         | NoAnswer => mkProbe false 0 "Timeout"
         end
  else None.

End Probe.

(* ===================================================================== *)
(** ** The masked prompt *)
(* ===================================================================== *)

(** [existingValue.slice(0, 4) + '...' + existingValue.slice(-4)] on a
    string. *)
Definition masked (existingValue : string) : string :=
  Js.slice_to 4 existingValue ++ "..." ++ Js.slice_last 4 existingValue.

(** The same expression on any stored value that is truthy: an array has
    [slice] too and is then joined; a number, [true] or an object has no
    [slice], which is a [TypeError] ([None]). *)
Definition masked_value (existingValue : JSON) : option string :=
  match existingValue with
  | JStr s => Some (masked s)
  | JArr items _ =>
      Some (Doc.to_js_string (JArr (firstn 4 items) []) ++ "..."
            ++ Doc.to_js_string (JArr (skipn (List.length items - 4) items) []))
  | _ => None
  end.

(* ===================================================================== *)
(** ** The session *)
(* ===================================================================== *)

(** The places of the file system the session touches. *)
Inductive Path : Type :=
| ConfigDir | ConfigPath | McpDir | PkgPath | BinDir | BinPath.

(** Every effect [main] performs besides printing, in order. *)
Inductive Event : Type :=
| EFetchDefaults
| EQuestion (question : string) (defaultValue : JSON)
| ESecret (question : string) (shown : option string)
| EProbe (target : string) (apiKey : JSON)
| EMkdir (p : Path)
| EWriteFile (p : Path)
| ENpmInstall
| EFetchRelease
| EDownload
| EChmod (p : Path).

Definition is_network (e : Event) : bool :=
  match e with
  | EFetchDefaults | EProbe _ _ | ENpmInstall | EFetchRelease | EDownload => true
  | _ => false
  end.

Definition is_probe (e : Event) : bool :=
  match e with EProbe _ _ => true | _ => false end.

Definition is_file_mutation (e : Event) : bool :=
  match e with
  | EMkdir _ | EWriteFile _ | ENpmInstall | EChmod _ => true
  | _ => false
  end.

Definition is_prompt (e : Event) : bool :=
  match e with EQuestion _ _ | ESecret _ _ => true | _ => false end.

(** What the terminal delivers to one prompt. *)
Inductive Answer : Type :=
| Typed (text : string)
| CtrlC.

(** How the release download goes. *)
Inductive Binary : Type :=
| ReleaseFailed | NoAsset | DownloadFailed | Installed.

(** How the session ends: [process.exit(code)], the end of [main] (exit
    code 0), or a prompt that is never answered. *)
Inductive Outcome : Type :=
| Exited (code : nat)
| Completed
| Stalled.

(** Everything outside the program that a run depends on. *)
Record Env : Type := mkEnv {
  nonInteractive : bool;
  isTTY : bool;
  defaults : Defaults;
  mcpPath : string;
  pkgExists : bool;
  npmOk : bool;
  binary : Binary
}.

(** The state a run threads: the answers and network outcomes still to
    come, the configuration file, and the effects so far, latest first. *)
Record World : Type := mkWorld {
  w_answers : list Answer;
  w_net : list Net;
  w_file : File;
  w_trace : list Event
}.

Inductive Step (A : Type) : Type :=
| Go (a : A) (w : World)
| Halt (o : Outcome) (w : World).
Arguments Go {A} a w.
Arguments Halt {A} o w.

Definition M (A : Type) : Type := World -> Step A.

Definition ret {A} (a : A) : M A := fun w => Go a w.

Definition bind {A B} (m : M A) (k : A -> M B) : M B :=
  fun w => match m w with
           | Go a w' => k a w'
           | Halt o w' => Halt o w'
           end.

Notation "x <- m ;; k" := (bind m (fun x => k))
  (at level 61, m at next level, right associativity).
Notation "m ;;; k" := (bind m (fun _ => k))
  (at level 61, right associativity).

Definition emit (e : Event) : M unit :=
  fun w => Go tt (mkWorld (w_answers w) (w_net w) (w_file w) (e :: w_trace w)).

(** [process.exit(code)] *)
Definition exit {A} (code : nat) : M A := fun w => Halt (Exited code) w.

(** An exception [main] does not catch: the handler on [main()] prints it
    and calls [process.exit(1)]. *)
Definition throw {A} : M A := exit 1.

Definition next_answer : M Answer :=
  fun w => match w_answers w with
           | a :: rest => Go a (mkWorld rest (w_net w) (w_file w) (w_trace w))
           | [] => Halt Stalled w
           end.

(** The next outcome of the network; a request that gets none runs into
    its timer. *)
Definition next_net : M Net :=
  fun w => match w_net w with
           | n :: rest => Go n (mkWorld (w_answers w) rest (w_file w) (w_trace w))
           | [] => Go NoAnswer w
           end.

Definition write_config (config : JSON) : M unit :=
  fun w => Go tt (mkWorld (w_answers w) (w_net w) (persist config)
                          (EWriteFile ConfigPath :: w_trace w)).

Definition read_file : M File := fun w => Go (w_file w) w.

Section Session.

Variable newURL : string -> option Url.t.
Variable env : Env.

(** The prompt of [ask] and the line that answers it.  An interrupt makes
    the line reader pause its input, and the question stays open. *)
Definition question (q : string) (defaultValue : JSON) : M string :=
  emit (EQuestion q defaultValue) ;;;
  a <- next_answer ;;
  match a with
  | Typed text => ret text
  | CtrlC => fun w => Halt Stalled w
  end.

(** [ask(question, defaultValue)] where the default is a string. *)
Definition ask (q : string) (defaultValue : string) : M string :=
  answer <- question q (JStr defaultValue) ;;
  ret (if Js.nonempty answer then answer else defaultValue).

(** [ask(question, defaultValue)] where the default is a stored value. *)
Definition ask_value (q : string) (defaultValue : JSON) : M JSON :=
  answer <- question q defaultValue ;;
  ret (if Js.nonempty answer then JStr answer else defaultValue).

(** [askPassword(question, existingValue)]: [Typed p] is the text typed
    before Enter.  The interrupt key ends the process on a terminal. *)
Definition askPassword (q : string) (existingValue : JSON) : M JSON :=
  (if Doc.truthy existingValue then
     match masked_value existingValue with
     | Some m => emit (ESecret q (Some m))
     | None => throw
     end
   else emit (ESecret q None)) ;;;
  a <- next_answer ;;
  match a with
  | Typed password =>
      ret (if Js.nonempty password then JStr password else existingValue)
  | CtrlC => if isTTY env then exit 0 else fun w => Halt Stalled w
  end.

(** [await testConnection(...)]: a rejected promise is thrown on. *)
Definition probe (baseUrl apiKey : JSON) (deployment : string) (apiVersion : JSON)
  : M ProbeResult :=
  if probe_sent newURL baseUrl apiKey deployment apiVersion then
    emit (EProbe (probe_target baseUrl deployment apiVersion) apiKey) ;;;
    n <- next_net ;;
    match testConnection newURL baseUrl apiKey deployment apiVersion n with
    | Some r => ret r
    | None => throw
    end
  else throw.

(** The values gathered before the probe. *)
Record Gathered : Type := mkGathered {
  g_baseUrl : JSON;
  g_deployment : string;
  g_apiVersion : JSON;
  g_apiKey : JSON
}.

(** [existingAzure?.baseUrl] and [existingAzure?.apiKey] *)
Definition prior_baseUrl (existingAzure : option Settings) : option JSON :=
  option_map s_baseUrl existingAzure.
Definition prior_apiKey (existingAzure : option Settings) : option JSON :=
  option_map s_apiKey existingAzure.

(** [rawEndpoint === existingAzure.baseUrl], where [rawEndpoint] is the
    stored value itself when the answer is empty and the answer
    otherwise. *)
Definition kept_endpoint (answer : string) (stored : JSON) : bool :=
  negb (Js.nonempty answer) ||
  match stored with JStr b => String.eqb answer b | _ => false end.

(** The branch taken when a prior endpoint exists and prompts are
    allowed. *)
Definition gather_reuse (ex : Settings) : M Gathered :=
  answer <- question "Endpoint" (s_baseUrl ex) ;;
  let g0 :=
    if kept_endpoint answer (s_baseUrl ex)
    then mkGathered (s_baseUrl ex) (s_deployment ex) (s_apiVersion ex) JNull
    else let parsed := parseAzureEndpoint newURL answer (defaults env) in
         mkGathered (JStr (baseUrl parsed)) (deployment parsed)
                    (JStr (apiVersion parsed)) JNull in
  apiKey <- askPassword "API Key" (Doc.or_else (Some (s_apiKey ex)) (JStr "")) ;;
  if negb (Doc.truthy apiKey) then exit 1
  else
    dep <- (if Js.nonempty (s_deployment ex)
               && String.eqb (g_deployment g0) (s_deployment ex)
            then ret (g_deployment g0)
            else ask "Deployment name" (g_deployment g0)) ;;
    ret (mkGathered (g_baseUrl g0) dep (g_apiVersion g0) apiKey).

(** The branch taken when there is no prior endpoint and prompts are
    allowed. *)
Definition gather_fresh : M Gathered :=
  rawEndpoint <- ask "Endpoint" "" ;;
  if negb (Js.nonempty rawEndpoint) then exit 1
  else
    let parsed := parseAzureEndpoint newURL rawEndpoint (defaults env) in
    apiKey <- askPassword "API Key" (JStr "") ;;
    if negb (Doc.truthy apiKey) then exit 1
    else
      dep <- ask "Deployment name" (deployment parsed) ;;
      ret (mkGathered (JStr (baseUrl parsed)) dep (JStr (apiVersion parsed)) apiKey).

(** The four-way branch of [main] on the mode and the prior settings.
    Reading a field of [existingAzure] when it is [null] would throw. *)
Definition gather (existingAzure : option Settings) : M Gathered :=
  if nonInteractive env
     && Doc.truthy_opt (prior_baseUrl existingAzure)
     && Doc.truthy_opt (prior_apiKey existingAzure)
  then match existingAzure with
       | Some ex => ret (mkGathered (s_baseUrl ex) (s_deployment ex)
                                    (s_apiVersion ex) (s_apiKey ex))
       | None => throw
       end
  else if nonInteractive env && negb (Doc.truthy_opt (prior_baseUrl existingAzure))
  then exit 1
  else if Doc.truthy_opt (prior_baseUrl existingAzure)
  then match existingAzure with
       | Some ex => gather_reuse ex
       | None => throw
       end
  else gather_fresh.

(** The probe and, when it fails with prompts allowed, the second round. *)
Definition verify (g : Gathered) : M Gathered :=
  result <- probe (g_baseUrl g) (g_apiKey g) (g_deployment g) (g_apiVersion g) ;;
  if ok result then ret g
  else if nonInteractive env then ret g
  else
    dep <- ask "Deployment name" (g_deployment g) ;;
    ver <- ask_value "API Version" (g_apiVersion g) ;;
    let g' := mkGathered (g_baseUrl g) dep ver (g_apiKey g) in
    result' <- probe (g_baseUrl g') (g_apiKey g') (g_deployment g') (g_apiVersion g') ;;
    if ok result' then ret g'
    else
      cont <- ask "Save config anyway? (y/N)" "N" ;;
      if negb (String.eqb (Js.toLowerCase cont) "y") then exit 1 else ret g'.

(** The entry the marketplace step stores. *)
Definition marketplace_entry : JSON :=
  JObj [ ("type", JStr "local");
         ("command", JArr [JStr "node"; JStr (mcpPath env)] []) ].

(** The marketplace step; whatever throws inside it is caught there. *)
Definition mcp_step (config : JSON) : M JSON :=
  emit (EMkdir McpDir) ;;;
  (if pkgExists env then ret tt else emit (EWriteFile PkgPath)) ;;;
  emit ENpmInstall ;;;
  if npmOk env then
    let mcp := Doc.or_else (Doc.get_prop config "mcp") (JObj []) in
    match Doc.set_prop config "mcp" mcp with
    | None => ret config
    | Some c1 =>
        match Doc.set_prop mcp "mcp-marketplace" marketplace_entry with
        | None => ret c1
        | Some mcp' =>
            match Doc.set_prop c1 "mcp" mcp' with
            | Some c2 => ret c2
            | None => ret c1
            end
        end
    end
  else ret config.

(** The download of the program itself, after the configuration is
    saved. *)
Definition binary_step : M unit :=
  emit EFetchRelease ;;;
  match binary env with
  | ReleaseFailed | NoAsset => ret tt
  | DownloadFailed => emit EDownload
  | Installed =>
      emit EDownload ;;; emit (EMkdir BinDir) ;;;
      emit (EWriteFile BinPath) ;;; emit (EChmod BinPath)
  end.

Definition main : M unit :=
  f <- read_file ;;
  let existingConfig := loadExistingConfig f in
  let existingAzure := getExistingAzureSettings existingConfig in
  emit EFetchDefaults ;;;
  g0 <- gather existingAzure ;;
  g <- verify g0 ;;
  emit (EMkdir ConfigDir) ;;;
  match merge existingConfig (g_baseUrl g) (g_apiKey g) (g_deployment g)
              (g_apiVersion g) with
  | None => throw
  | Some config =>
      config' <- mcp_step config ;;
      write_config config' ;;;
      binary_step
  end.

(** A whole run from a starting state: how it ends, and the state then. *)
Definition run (w : World) : Outcome * World :=
  match main w with
  | Go _ w' => (Completed, w')
  | Halt o w' => (o, w')
  end.

(** The effects of a run, earliest first. *)
Definition effects (w : World) : list Event := rev (w_trace (snd (run w))).

End Session.

(* ===================================================================== *)
(** ** The defaults feed *)
(* ===================================================================== *)

(** What the request of [fetchDefaults] comes to: [fetch] rejects (no
    network, or the three-second signal aborts it), or a response arrives,
    with its [ok] flag and the value [res.json()] reads, [None] when the
    body is not JSON. *)
Inductive Fetched : Type :=
| FetchRejected
| Responded (okFlag : bool) (data : option JSON).

(** The object [fetchDefaults] returns: whatever truthy values the feed
    holds are handed on as they are. *)
Record FetchedDefaults : Type := mkFetched {
  f_deployment : JSON;
  f_apiVersion : JSON
}.

(** [fetchDefaults].  Reading a property of [null] throws before either
    field is assigned; the exception is caught like every other one. *)
Definition fetchDefaults (r : Fetched) : FetchedDefaults :=
  let deployment := JStr "model-router" in
  let apiVersion := JStr "2025-01-01-preview" in
  match r with
  | Responded true (Some data) =>
      match data with
      | JNull => mkFetched deployment apiVersion
      | _ =>
          mkFetched (Doc.or_else (Doc.get_prop data "deployment") deployment)
                    (Doc.or_else (Doc.get_prop data "apiVersion") apiVersion)
      end
  | _ => mkFetched deployment apiVersion
  end.

(* ===================================================================== *)
(** ** Notions the statements are written with *)
(* ===================================================================== *)

Module Spec.

(** No slash among the characters. *)
Fixpoint slash_free (s : string) : bool :=
  match s with
  | EmptyString => true
  | String c s' => negb (Ascii.eqb c "/") && slash_free s'
  end.

(** Scheme and authority as the serialiser writes them before a path. *)
Definition origin (url : Url.t) (path : string) : string :=
  Url.scheme url ++ ":" ++
  match Url.authority url with
  | Some a => "//" ++ a
  | None => if String.prefix "//" path then "/." else ""
  end.

(** The fragment as the serialiser writes it. *)
Definition fragment_text (url : Url.t) : string :=
  match Url.fragment url with Some f => "#" ++ f | None => "" end.


(** Arrays, whose named properties are lost when the document is saved. *)
Definition is_array (v : JSON) : bool :=
  match v with JArr _ _ => true | _ => false end.

(** A computation that leaves the configuration file alone and performs
    only effects of the class [P], whether it returns or ends the run. *)
Definition only (P : Event -> bool) {A : Type} (m : M A) : Prop :=
  forall w,
    let w' := match m w with Go _ w' => w' | Halt _ w' => w' end in
    w_file w' = w_file w
    /\ exists evs, w_trace w' = (evs ++ w_trace w)%list /\ forallb P evs = true.

(** The effects of the probing stage. *)
Definition prompt_or_probe (e : Event) : bool := is_prompt e || is_probe e.

(** The state after the prior settings are read and the defaults are
    fetched. *)
Definition after_fetch (w : World) : World :=
  mkWorld (w_answers w) (w_net w) (w_file w) (EFetchDefaults :: w_trace w).

(** The prior settings of a starting state. *)
Definition prior (w : World) : option Settings :=
  getExistingAzureSettings (loadExistingConfig (w_file w)).

(** Whether the answer to the confirmation declines: it is taken as [N]
    when empty, and only [y] and [Y] accept. *)
Definition declines (a3 : string) : bool :=
  negb (String.eqb (Js.toLowerCase (if Js.nonempty a3 then a3 else "N")) "y").

(** The one write of the configuration file. *)
Definition is_config_write (e : Event) : bool :=
  match e with EWriteFile ConfigPath => true | _ => false end.

(** The effects of the two installation steps. *)
Definition is_install (e : Event) : bool :=
  match e with
  | EMkdir McpDir | EWriteFile PkgPath | ENpmInstall
  | EFetchRelease | EDownload | EMkdir BinDir | EWriteFile BinPath | EChmod BinPath => true
  | _ => false
  end.

(** How many events of a list are of the class [P]. *)
Definition count_events (P : Event -> bool) (evs : list Event) : nat :=
  List.length (filter P evs).

(** Values that are ready for the probe and the file: a base URL and a key
    that are truthy, a deployment that is not empty, a version that is
    truthy. *)
Definition complete (g : Gathered) : Prop :=
  Doc.truthy (g_baseUrl g) = true /\ Doc.truthy (g_apiKey g) = true
  /\ g_deployment g <> "" /\ Doc.truthy (g_apiVersion g) = true.

(** Whether a property list holds a name. *)
Definition has_key (k : string) (fs : list (string * JSON)) : bool :=
  match Doc.assoc_get k fs with Some _ => true | None => false end.

(** A computation that performs at most [n] effects of the class [P],
    whether it returns or ends the run. *)
Definition at_most (P : Event -> bool) (n : nat) {A : Type} (m : M A) : Prop :=
  forall w,
    let w' := match m w with Go _ w' => w' | Halt _ w' => w' end in
    exists evs, w_trace w' = (evs ++ w_trace w)%list /\ count_events P evs <= n.

(** A computation that never ends the run the way the end of [main]
    does. *)
Definition stops_short {A : Type} (m : M A) : Prop :=
  forall w o w', m w = Halt o w' -> o <> Completed.

(** The effects that can come before the configuration is merged. *)
Definition is_early (e : Event) : bool :=
  is_prompt e || is_probe e
  || match e with EFetchDefaults | EMkdir ConfigDir => true | _ => false end.

(** The values with which the gathering stage can end. *)
Definition gathered_ok (env : Env) (g : Gathered) : Prop :=
  Doc.truthy (g_baseUrl g) = true /\ Doc.truthy (g_apiKey g) = true
  /\ (d_deployment (defaults env) <> "" -> g_deployment g <> "")
  /\ (d_apiVersion (defaults env) <> "" -> Doc.truthy (g_apiVersion g) = true).

(** A state with another configuration file. *)
Definition with_file (f : File) (w : World) : World :=
  mkWorld (w_answers w) (w_net w) f (w_trace w).

Definition step_with_file {A : Type} (f : File) (s : Step A) : Step A :=
  match s with
  | Go a w => Go a (with_file f w)
  | Halt o w => Halt o (with_file f w)
  end.

(** A computation that neither reads nor writes the configuration file. *)
Definition file_blind {A : Type} (m : M A) : Prop :=
  forall f w, m (with_file f w) = step_with_file f (m w).

End Spec.

(* ===================================================================== *)
(** * Facts about the string operations *)
(* ===================================================================== *)

Module JsFacts.

Import Spec.

Lemma append_nil_r (s : string) : s ++ "" = s.
Proof. induction s as [|c s IH]; simpl; [reflexivity | now rewrite IH]. Qed.

Lemma append_assoc (a b c : string) : (a ++ b) ++ c = a ++ (b ++ c).
Proof. induction a as [|x a IH]; simpl; [reflexivity | now rewrite IH]. Qed.

Lemma length_append (a b : string) :
  String.length (a ++ b) = String.length a + String.length b.
Proof. induction a as [|x a IH]; simpl; [reflexivity | now rewrite IH]. Qed.

Lemma prefix_append (p r : string) : String.prefix p (p ++ r) = true.
Proof.
  induction p as [|c p IH]; simpl.
  - now destruct r.
  - destruct (ascii_dec c c) as [_|n]; [exact IH | now elim n].
Qed.

Lemma prefix_inv (p s : string) :
  String.prefix p s = true -> exists r, s = p ++ r.
Proof.
  revert s; induction p as [|c p IH]; intros s H.
  - now exists s.
  - destruct s as [|d s]; simpl in H; [discriminate|].
    destruct (ascii_dec c d) as [->|]; [|discriminate].
    destruct (IH _ H) as [r ->]. now exists r.
Qed.

Lemma substring_all (s : string) : substring 0 (String.length s) s = s.
Proof. induction s as [|c s IH]; simpl; [reflexivity | now rewrite IH]. Qed.

Lemma substring_skip (a p : string) :
  substring (String.length a) (String.length p) (a ++ p) = p.
Proof. induction a as [|c a IH]; simpl; [apply substring_all | exact IH]. Qed.

Lemma substring_split (n m : nat) (s : string) :
  n + m = String.length s ->
  s = substring 0 n s ++ substring n m s.
Proof.
  revert m s; induction n as [|n IH]; intros m s H.
  - simpl in H. subst m. rewrite substring_all. now destruct s.
  - destruct s as [|c s]; simpl in *; [discriminate|].
    f_equal. apply IH. lia.
Qed.

Lemma endsWith_append (a p : string) : Js.endsWith (a ++ p) p = true.
Proof.
  unfold Js.endsWith. rewrite length_append.
  replace (Nat.leb (String.length p) (String.length a + String.length p)) with true
    by (symmetry; apply Nat.leb_le; lia).
  replace (String.length a + String.length p - String.length p)
    with (String.length a) by lia.
  rewrite substring_skip. apply String.eqb_refl.
Qed.

Lemma endsWith_inv (s p : string) :
  Js.endsWith s p = true -> exists a, s = a ++ p.
Proof.
  unfold Js.endsWith. intro H.
  destruct (Nat.leb (String.length p) (String.length s)) eqn:L; [|discriminate].
  apply Nat.leb_le in L. apply String.eqb_eq in H.
  exists (substring 0 (String.length s - String.length p) s).
  rewrite (substring_split (String.length s - String.length p) (String.length p) s)
    at 1 by lia.
  now rewrite H.
Qed.

Lemma includes_unfold (s p : string) :
  Js.includes s p =
  String.prefix p s || match s with "" => false | String _ s' => Js.includes s' p end.
Proof. destruct s; reflexivity. Qed.

Lemma includes_here (p b : string) : Js.includes (p ++ b) p = true.
Proof. rewrite includes_unfold, prefix_append. reflexivity. Qed.

Lemma includes_append (a p b : string) : Js.includes (a ++ p ++ b) p = true.
Proof.
  induction a as [|c a IH]; simpl.
  - apply includes_here.
  - rewrite IH. apply orb_true_r.
Qed.

Lemma includes_inv (s p : string) :
  Js.includes s p = true -> exists a b, s = a ++ p ++ b.
Proof.
  induction s as [|c s IH]; rewrite includes_unfold; intro H.
  - rewrite orb_false_r in H. destruct (prefix_inv _ _ H) as [r ->].
    now exists "", r.
  - apply orb_true_iff in H. destruct H as [H|H].
    + destruct (prefix_inv _ _ H) as [r ->]. now exists "", r.
    + destruct (IH H) as (a & b & ->). now exists (String c a), b.
Qed.

(** What dropping one final slash does. *)
Lemma strip_trailing_slash_spec (s : string) :
  s = Js.strip_trailing_slash s ++ "/"
  \/ (Js.strip_trailing_slash s = s /\ Js.endsWith s "/" = false).
Proof.
  induction s as [|c s IH].
  - right. split; reflexivity.
  - destruct s as [|d s].
    + simpl. destruct (Ascii.eqb_spec c "/") as [->|n].
      * left. reflexivity.
      * right. split; [reflexivity|].
        unfold Js.endsWith. simpl. apply Ascii.eqb_neq in n. now rewrite n.
    + change (Js.strip_trailing_slash (String c (String d s)))
        with (String c (Js.strip_trailing_slash (String d s))).
      destruct IH as [IH|[IH1 IH2]].
      * left. apply (f_equal (String c)) in IH. exact IH.
      * right. rewrite IH1. split; [reflexivity|].
        destruct (Js.endsWith (String c (String d s)) "/") eqn:E; [|reflexivity].
        destruct (endsWith_inv _ _ E) as [a Ha].
        destruct a as [|x a]; simpl in Ha; [discriminate|].
        injection Ha as _ Ha. rewrite Ha, endsWith_append in IH2. discriminate.
Qed.

Lemma strip_no_final_slash (s : string) :
  Js.endsWith s "/" = false -> Js.strip_trailing_slash s = s.
Proof.
  intro H. destruct (strip_trailing_slash_spec s) as [E|[E _]]; [|exact E].
  rewrite E, endsWith_append in H. discriminate.
Qed.

Lemma strip_final_slash (a : string) : Js.strip_trailing_slash (a ++ "/") = a.
Proof.
  induction a as [|c a IH]; [reflexivity|].
  simpl. rewrite IH. destruct (a ++ "/") eqn:E; [|reflexivity].
  destruct a; discriminate.
Qed.

End JsFacts.

(* ===================================================================== *)
(** * The endpoint parser: inputs the URL constructor rejects *)
(* ===================================================================== *)

Module HostBranch.

Import Spec JsFacts.

Lemma no_slash_strip (s : string) :
  Js.includes s "/" = false -> Js.strip_trailing_slash s = s.
Proof.
  intro H. destruct (strip_trailing_slash_spec s) as [E|[E _]]; [|exact E].
  pose proof (includes_append (Js.strip_trailing_slash s) "/" "") as I.
  change ("/" ++ "") with "/" in I. rewrite <- E in I. congruence.
Qed.

Lemma no_slash_no_https (s : string) :
  Js.includes s "/" = false -> Js.startsWith s "https://" = false.
Proof.
  intro H. destruct (Js.startsWith s "https://") eqn:E; [|reflexivity].
  destruct (prefix_inv _ _ E) as [r ->].
  change ("https://" ++ r) with ("https:" ++ "/" ++ String "/" r) in H.
  rewrite includes_append in H. discriminate.
Qed.

Lemma no_scheme_no_https (s : string) :
  Js.includes s "://" = false ->
  Js.startsWith (Js.strip_trailing_slash s) "https://" = false.
Proof.
  intro H. destruct (Js.startsWith _ _) eqn:E; [|reflexivity].
  destruct (prefix_inv _ _ E) as [r Hr].
  destruct (strip_trailing_slash_spec s) as [S|[S _]].
  - rewrite S, Hr in H.
    change (("https://" ++ r) ++ "/") with ("https" ++ String ":" (String "/" (String "/" (r ++ "/")))) in H.
    change (String ":" (String "/" (String "/" (r ++ "/")))) with ("://" ++ (r ++ "/")) in H.
    rewrite includes_append in H. discriminate.
  - rewrite S in Hr. rewrite Hr in H.
    change ("https://" ++ r) with ("https" ++ "://" ++ r) in H.
    rewrite includes_append in H. discriminate.
Qed.

(** After the scheme is put before a name without slashes, the result ends
    in [/openai] only for the name [openai] itself. *)
Lemma https_ends_openai (s : string) :
  Js.includes s "/" = false ->
  Js.endsWith ("https://" ++ s) "/openai" = true -> s = "openai".
Proof.
  intros N E. destruct (endsWith_inv _ _ E) as [a Ha].
  do 7 (destruct a as [|? a]; [discriminate Ha | injection Ha as _ Ha]).
  destruct a as [|? a].
  - now injection Ha.
  - injection Ha as _ Ha. rewrite Ha in N.
    change (a ++ "/openai") with (a ++ "/" ++ "openai") in N.
    rewrite includes_append in N. discriminate.
Qed.

(** The base URL of the [catch] branch, written out. *)
Lemma host_branch_base (input : string) (d : Defaults) :
  let cleaned := Js.strip_trailing_slash input in
  let pre := if Js.startsWith cleaned "https://" then "" else "https://" in
  baseUrl (parse_host_branch input d) =
  pre ++ cleaned ++ (if Js.endsWith (pre ++ cleaned) "/openai" then "" else "/openai").
Proof.
  intros cleaned pre. unfold parse_host_branch. fold cleaned. simpl.
  unfold pre. destruct (Js.startsWith cleaned "https://"); simpl.
  - destruct (Js.endsWith cleaned "/openai"); simpl;
      [now rewrite append_nil_r | reflexivity].
  - destruct (Js.endsWith (String _ _) "/openai"); simpl;
      [now rewrite append_nil_r | reflexivity].
Qed.

(** It always ends in [/openai]. *)
Lemma host_branch_ends (input : string) (d : Defaults) :
  Js.endsWith (baseUrl (parse_host_branch input d)) "/openai" = true.
Proof.
  rewrite host_branch_base. cbv zeta.
  destruct (Js.endsWith (_ ++ Js.strip_trailing_slash input) "/openai") eqn:E.
  - rewrite append_nil_r. exact E.
  - rewrite <- append_assoc. apply endsWith_append.
Qed.

(** C8.  An input that [new URL] rejects is normalised textually: one
    trailing slash is dropped; [https://] is put in front unless the text
    already starts with it (in particular whenever the input holds no
    scheme separator); [/openai] is put behind unless the text already ends
    with it, so the result always starts with [https://] and ends in
    [/openai]; the defaults are returned untouched.  For a bare host (no
    slash at all) the result is [https://] followed by the host and ends in
    [/openai]; it is exactly [https://<host>/openai] for every host but
    the name [openai]. *)
Theorem host_branch_normalises (newURL : string -> option Url.t)
    (input : string) (d : Defaults) :
  newURL input = None ->
  let r := parseAzureEndpoint newURL input d in
  let cleaned := Js.strip_trailing_slash input in
  (input = cleaned ++ "/" \/ (cleaned = input /\ Js.endsWith input "/" = false))
  /\ (exists pre post,
        baseUrl r = pre ++ cleaned ++ post
        /\ (Js.startsWith cleaned "https://" = true -> pre = "")
        /\ (Js.startsWith cleaned "https://" = false -> pre = "https://")
        /\ (Js.endsWith (pre ++ cleaned) "/openai" = true -> post = "")
        /\ (Js.endsWith (pre ++ cleaned) "/openai" = false -> post = "/openai"))
  /\ (Js.includes input "://" = false ->
      Js.startsWith (baseUrl r) ("https://" ++ cleaned) = true)
  /\ Js.startsWith (baseUrl r) "https://" = true
  /\ Js.endsWith (baseUrl r) "/openai" = true
  /\ deployment r = d_deployment d
  /\ apiVersion r = d_apiVersion d
  /\ (Js.includes input "/" = false ->
      Js.startsWith (baseUrl r) ("https://" ++ input) = true
      /\ (input <> "openai" -> baseUrl r = "https://" ++ input ++ "/openai")).
Proof.
  intros Hnone r cleaned.
  assert (Hr : r = parse_host_branch input d)
    by (unfold r, parseAzureEndpoint; now rewrite Hnone).
  assert (Hbase : baseUrl r =
    (if Js.startsWith cleaned "https://" then "" else "https://") ++ cleaned ++
    (if Js.endsWith ((if Js.startsWith cleaned "https://" then "" else "https://")
                     ++ cleaned) "/openai" then "" else "/openai"))
    by (rewrite Hr; apply host_branch_base).
  assert (Hstart : Js.startsWith (baseUrl r) "https://" = true).
  { rewrite Hbase. destruct (Js.startsWith cleaned "https://") eqn:E.
    - destruct (prefix_inv _ _ E) as [x ->].
      rewrite append_assoc. exact (prefix_append "https://" _).
    - apply prefix_append. }
  assert (Hend : Js.endsWith (baseUrl r) "/openai" = true)
    by (rewrite Hr; apply host_branch_ends).
  split; [|split; [|split; [|split; [|split; [|split; [|split]]]]]].
  - destruct (strip_trailing_slash_spec input) as [E|[E1 E2]]; [left|right]; auto.
  - eexists _, _. split; [exact Hbase|].
    destruct (Js.startsWith cleaned "https://");
      destruct (Js.endsWith (_ ++ cleaned) "/openai");
      repeat split; intros; try reflexivity; discriminate.
  - intro Hs. rewrite Hbase. unfold cleaned at 1.
    rewrite (no_scheme_no_https _ Hs). fold cleaned.
    rewrite <- append_assoc. apply prefix_append.
  - exact Hstart.
  - exact Hend.
  - now rewrite Hr.
  - now rewrite Hr.
  - intro Hs. assert (Hc : cleaned = input) by (apply no_slash_strip; exact Hs).
    rewrite Hbase, Hc, (no_slash_no_https _ Hs). split.
    + rewrite <- append_assoc. apply prefix_append.
    + intro Hne. destruct (Js.endsWith ("https://" ++ input) "/openai") eqn:E.
      * elim Hne. now apply https_ends_openai.
      * reflexivity.
Qed.

(** The statement at the input [foo.openai.azure.com]. *)
Lemma host_branch_normalises_witness :
  baseUrl (parseAzureEndpoint Url.parse "foo.openai.azure.com" hardcoded_defaults)
  = "https://foo.openai.azure.com/openai".
Proof.
  apply (host_branch_normalises Url.parse "foo.openai.azure.com" hardcoded_defaults);
    [reflexivity | reflexivity | discriminate].
Defined.

End HostBranch.

(* ===================================================================== *)
(** * The endpoint parser: the path kept in the base URL *)
(* ===================================================================== *)

Module PathFacts.

Import Spec JsFacts.

Lemma split_slash_cons (s : string) : exists h t, Js.split_slash s = h :: t.
Proof.
  induction s as [|c s IH]; simpl.
  - now eexists _, _.
  - destruct (Ascii.eqb c "/"); [now eexists _, _|].
    destruct IH as (h & t & ->). now eexists _, _.
Qed.

Lemma split_slash_free (s : string) :
  Forall (fun p => slash_free p = true) (Js.split_slash s).
Proof.
  induction s as [|c s IH]; simpl.
  - now repeat constructor.
  - destruct (Ascii.eqb c "/") eqn:E.
    + now constructor.
    + destruct (Js.split_slash s) as [|h t]; [now repeat constructor; simpl; rewrite E|].
      inversion IH; subst. constructor; [simpl; now rewrite E | assumption].
Qed.

Lemma join_split (s : string) : Js.join_slash (Js.split_slash s) = s.
Proof.
  unfold Js.join_slash. induction s as [|c s IH]; [reflexivity|]. simpl.
  destruct (Ascii.eqb_spec c "/") as [->|n].
  - destruct (split_slash_cons s) as (h & t & E). rewrite E in *.
    simpl. simpl in IH. now rewrite IH.
  - destruct (split_slash_cons s) as (h & t & E). rewrite E in *.
    destruct t; simpl in *; now rewrite IH.
Qed.

Lemma split_segment (h : string) (rest : string) :
  slash_free h = true ->
  Js.split_slash (h ++ String "/" rest) = h :: Js.split_slash rest.
Proof.
  intro F. induction h as [|c h IH]; [reflexivity|].
  simpl in F. apply andb_true_iff in F. destruct F as [F1 F2].
  simpl. apply negb_true_iff in F1. rewrite F1, (IH F2). reflexivity.
Qed.

Lemma split_single (h : string) :
  slash_free h = true -> Js.split_slash h = [h].
Proof.
  intro F. induction h as [|c h IH]; [reflexivity|].
  simpl in F. apply andb_true_iff in F. destruct F as [F1 F2].
  simpl. apply negb_true_iff in F1. rewrite F1, (IH F2). reflexivity.
Qed.

(** Splitting what was joined gives the parts back. *)
Lemma split_join (l : list string) :
  l <> [] -> Forall (fun p => slash_free p = true) l ->
  Js.split_slash (Js.join_slash l) = l.
Proof.
  unfold Js.join_slash. induction l as [|h t IH]; [congruence|].
  intros _ F. inversion F as [|? ? Fh Ft]; subst.
  destruct t as [|h2 t].
  - simpl. now apply split_single.
  - change (String.concat "/" (h :: h2 :: t))
      with (h ++ String "/" (String.concat "/" (h2 :: t))).
    rewrite (split_segment _ _ Fh). f_equal. apply IH; [discriminate | assumption].
Qed.

Lemma indexOf_bound (x : string) (l : list string) (i : nat) :
  Js.indexOf x l = Some i -> i < List.length l.
Proof.
  revert i; induction l as [|p l IH]; intros i H; simpl in *; [discriminate|].
  destruct (String.eqb p x).
  - injection H as <-. lia.
  - destruct (Js.indexOf x l) as [j|]; [|discriminate].
    injection H as <-. specialize (IH _ eq_refl). lia.
Qed.

(** The parts up to the first occurrence hold it once, at the end. *)
Lemma firstn_indexOf (x : string) (l : list string) (i : nat) :
  Js.indexOf x l = Some i ->
  exists before, firstn (i + 1) l = (before ++ [x])%list /\ ~ In x before.
Proof.
  revert i; induction l as [|p l IH]; intros i H; simpl in *; [discriminate|].
  destruct (String.eqb_spec p x) as [->|n].
  - injection H as <-. exists []. split; [reflexivity | intros []].
  - destruct (Js.indexOf x l) as [j|]; [|discriminate].
    injection H as <-. destruct (IH _ eq_refl) as (b & E & N).
    exists (p :: b). simpl. rewrite E. split; [reflexivity|].
    intros [->|I]; [now elim n | now elim N].
Qed.

Lemma count_occ_once (x : string) (before : list string) :
  ~ In x before -> count_occ string_dec (before ++ [x])%list x = 1.
Proof.
  intro N. rewrite count_occ_app.
  rewrite (proj1 (count_occ_not_In string_dec before x) N). simpl.
  destruct (string_dec x x); [reflexivity | congruence].
Qed.

Lemma concat_snoc (before : list string) (x : string) :
  exists a, String.concat "/" (before ++ [x])%list = a ++ x.
Proof.
  induction before as [|h t IH]; simpl.
  - now exists "".
  - destruct IH as [a E]. destruct (t ++ [x])%list eqn:L.
    + destruct t; discriminate.
    + rewrite E. exists (h ++ "/" ++ a). now rewrite !append_assoc.
Qed.

(** What [base_path] returns, whatever the pathname: its parts hold
    [openai] exactly once, as the last part, and the text ends with it. *)
Lemma base_path_shape (pathname : string) :
  count_occ string_dec (Js.split_slash (base_path pathname)) "openai" = 1
  /\ last (Js.split_slash (base_path pathname)) "" = "openai"
  /\ exists a, base_path pathname = a ++ "openai".
Proof.
  unfold base_path.
  destruct (Js.indexOf "openai" (Js.split_slash pathname)) as [i|] eqn:E.
  - destruct (firstn_indexOf _ _ _ E) as (b & Eb & N). rewrite Eb.
    assert (F : Forall (fun p => slash_free p = true) (b ++ ["openai"])%list).
    { rewrite <- Eb. apply Forall_forall. intros p Hp.
      apply (proj1 (Forall_forall _ _) (split_slash_free pathname)).
      rewrite <- (firstn_skipn (i + 1) (Js.split_slash pathname)).
      apply in_or_app. now left. }
    rewrite split_join; [|now destruct b | exact F].
    split; [now apply count_occ_once|]. split; [apply last_last|].
    apply concat_snoc.
  - split; [reflexivity|]. split; [reflexivity|]. now exists "/".
Qed.

Lemma last_char_eq (a b : string) (c d : ascii) :
  a ++ String c "" = b ++ String d "" -> c = d.
Proof.
  revert b; induction a as [|x a IH]; intros b H.
  - destruct b as [|y b]; simpl in H; [congruence|].
    destruct b; discriminate.
  - destruct b as [|y b]; simpl in H.
    + destruct a; discriminate.
    + injection H as _ H. eauto.
Qed.

(** A text that ends in [openai] does not end in a slash. *)
Lemma openai_no_final_slash (a : string) : Js.endsWith (a ++ "openai") "/" = false.
Proof.
  destruct (Js.endsWith _ _) eqn:E; [|reflexivity].
  destruct (endsWith_inv _ _ E) as [b Hb].
  change (a ++ "openai") with (a ++ "opena" ++ "i") in Hb.
  rewrite <- append_assoc in Hb. apply last_char_eq in Hb. discriminate.
Qed.

End PathFacts.

(* ===================================================================== *)
(** * The endpoint parser: inputs the URL constructor accepts *)
(* ===================================================================== *)

Module UrlBranch.

Import Spec JsFacts PathFacts.

(** The base URL of the [try] branch, for a URL whose path is not opaque:
    origin, kept path and fragment, less one final slash. *)
Lemma url_branch_base (url : Url.t) (d : Defaults) :
  Url.opaque url = false ->
  baseUrl (parse_url_branch url d) =
  Js.strip_trailing_slash
    (origin url (base_path (Url.pathname url)) ++ base_path (Url.pathname url)
     ++ fragment_text url).
Proof.
  intro O. unfold parse_url_branch, Url.set_pathname, Url.clear_search,
    Url.toString, origin, fragment_text. rewrite O. simpl.
  rewrite !append_assoc. reflexivity.
Qed.

Lemma url_branch_base_plain (url : Url.t) (d : Defaults) :
  Url.opaque url = false -> Url.fragment url = None ->
  baseUrl (parse_url_branch url d) =
  origin url (base_path (Url.pathname url)) ++ base_path (Url.pathname url).
Proof.
  intros O F. rewrite (url_branch_base _ _ O). unfold fragment_text. rewrite F.
  rewrite append_nil_r.
  destruct (base_path_shape (Url.pathname url)) as (_ & _ & a & ->).
  rewrite <- append_assoc. apply strip_no_final_slash, openai_no_final_slash.
Qed.

(** C2, as the code has it.  When the constructor rejects the input, the
    base URL ends in [/openai], hence not in a slash.  When it accepts the
    input as a URL whose path is not opaque, the base URL is the origin,
    then a path whose parts hold [openai] exactly once, as the last part,
    then the fragment, less one final slash; without a fragment it is the
    origin and that path, and does not end in a slash. *)
Theorem base_url_shape (newURL : string -> option Url.t) (input : string)
    (d : Defaults) :
  let r := parseAzureEndpoint newURL input d in
  (newURL input = None ->
     Js.endsWith (baseUrl r) "/openai" = true /\ Js.endsWith (baseUrl r) "/" = false)
  /\ (forall url, newURL input = Some url -> Url.opaque url = false ->
       let path := base_path (Url.pathname url) in
       baseUrl r = Js.strip_trailing_slash (origin url path ++ path ++ fragment_text url)
       /\ count_occ string_dec (Js.split_slash path) "openai" = 1
       /\ last (Js.split_slash path) "" = "openai"
       /\ (Url.fragment url = None ->
           baseUrl r = origin url path ++ path /\ Js.endsWith (baseUrl r) "/" = false)).
Proof.
  intro r. split.
  - intro H.
    assert (E : Js.endsWith (baseUrl r) "/openai" = true).
    { unfold r, parseAzureEndpoint. rewrite H. apply HostBranch.host_branch_ends. }
    split; [exact E|].
    destruct (endsWith_inv _ _ E) as [a ->].
    change (a ++ "/openai") with (a ++ "/" ++ "openai").
    rewrite <- append_assoc. apply openai_no_final_slash.
  - intros url H O path. unfold r, parseAzureEndpoint. rewrite H.
    destruct (base_path_shape (Url.pathname url)) as (C & L & a & Ea).
    split; [now apply url_branch_base|]. split; [exact C|]. split; [exact L|].
    intro F. rewrite (url_branch_base_plain _ _ O F). split; [reflexivity|].
    fold path. unfold path at 2. rewrite Ea, <- append_assoc.
    apply openai_no_final_slash.
Qed.

Lemma base_url_shape_witness :
  baseUrl (parseAzureEndpoint Url.parse
             "https://foo.openai.azure.com/openai/deployments/gpt-5/chat/completions?api-version=2024-10-01"
             hardcoded_defaults)
  = "https://foo.openai.azure.com" ++ "/openai".
Proof.
  pose proof (proj2 (base_url_shape Url.parse
    "https://foo.openai.azure.com/openai/deployments/gpt-5/chat/completions?api-version=2024-10-01"
    hardcoded_defaults)
    (Url.mk "https" (Some "foo.openai.azure.com") false
            "/openai/deployments/gpt-5/chat/completions"
            (Some "api-version=2024-10-01") None [("api-version", "2024-10-01")])
    eq_refl eq_refl) as H.
  exact (proj1 (proj2 (proj2 (proj2 H)) eq_refl)).
Defined.

(** C2 as stated fails: an input without a scheme that already holds an
    [openai] part gets a second one; a host written with a port reads as a
    URL with an opaque path and comes back as it is, without any [openai];
    a fragment that ends in two slashes leaves a final slash. *)
Lemma base_url_shape_counterexample :
  (baseUrl (parseAzureEndpoint Url.parse "foo/openai/bar" hardcoded_defaults)
     = "https://foo" ++ "/openai/bar/openai"
   /\ count_occ string_dec (Js.split_slash "/openai/bar/openai") "openai" = 2)
  /\ baseUrl (parseAzureEndpoint Url.parse "foo.openai.azure.com:443" hardcoded_defaults)
     = "foo.openai.azure.com:443"
  /\ Js.endsWith
       (baseUrl (parseAzureEndpoint Url.parse "https://h.example/openai#a//"
                   hardcoded_defaults)) "/" = true.
Proof. repeat split; vm_compute; reflexivity. Qed.

(** *** The deployment name and the version *)

Lemma prefix_ext (p a y : string) :
  slash_free p = true -> String.prefix p a = false ->
  String.prefix (p ++ "/") (a ++ String "/" y) = false.
Proof.
  revert a; induction p as [|x p IH]; intros a F H.
  - now destruct a.
  - simpl in F. apply andb_true_iff in F. destruct F as [F1 F2].
    apply negb_true_iff, Ascii.eqb_neq in F1.
    destruct a as [|c a]; simpl in *.
    + destruct (ascii_dec x "/"); [contradiction | reflexivity].
    + destruct (ascii_dec x c); [now apply IH | reflexivity].
Qed.

Lemma substring_full (x : string) (m : nat) :
  String.length x <= m -> substring 0 m x = x.
Proof.
  revert m; induction x as [|c x IH]; intros m L.
  - now destruct m.
  - destruct m as [|m]; simpl in *; [lia|]. f_equal. apply IH. lia.
Qed.

Lemma take_segment_append (name rest : string) :
  slash_free name = true -> rest = "" \/ String.prefix "/" rest = true ->
  Js.take_segment (name ++ rest) = name.
Proof.
  intros F R. induction name as [|c name IH].
  - destruct R as [->|R]; [reflexivity|].
    destruct (prefix_inv _ _ R) as [x ->]. reflexivity.
  - simpl in F. apply andb_true_iff in F. destruct F as [F1 F2].
    apply negb_true_iff in F1. simpl. rewrite F1, (IH F2). reflexivity.
Qed.

(** The pattern finds the name in a pathname of the shape
    [a/deployments/<name>rest] when the marker does not occur in [a]
    already. *)
Lemma match_deployment_shape (a name rest : string) :
  Js.includes a "/deployments" = false ->
  slash_free name = true -> name <> "" ->
  rest = "" \/ String.prefix "/" rest = true ->
  Js.match_deployment (a ++ "/deployments/" ++ name ++ rest) = Some name.
Proof.
  intros I F N R. induction a as [|c a IH].
  - change ("" ++ "/deployments/" ++ name ++ rest)
      with (String "/" ("deployments/" ++ name ++ rest)).
    unfold Js.match_deployment.
    change (String.prefix "/deployments/" (String "/" ("deployments/" ++ name ++ rest)))
      with (String.prefix "/deployments/" ("/deployments/" ++ name ++ rest)).
    rewrite prefix_append.
    change (substring 13 (String.length (String "/" ("deployments/" ++ name ++ rest)))
              (String "/" ("deployments/" ++ name ++ rest)))
      with (substring 0 (14 + String.length (name ++ rest) - 1) (name ++ rest)).
    rewrite substring_full by lia.
    rewrite (take_segment_append _ _ F R).
    destruct name; [congruence | reflexivity].
  - rewrite includes_unfold in I. apply orb_false_iff in I. destruct I as [I1 I2].
    change ((String c a) ++ "/deployments/" ++ name ++ rest)
      with (String c (a ++ "/deployments/" ++ name ++ rest)).
    cbn [Js.match_deployment].
    assert (P : String.prefix "/deployments/"
                  (String c (a ++ "/deployments/" ++ name ++ rest)) = false).
    { cbn [String.prefix] in I1 |- *. destruct (ascii_dec "/" c); [|reflexivity].
      exact (prefix_ext "deployments" a ("deployments/" ++ name ++ rest) eq_refl I1). }
    rewrite P. simpl. apply IH. exact I2.
Qed.

(** *** The kept path is a truncation of the pathname *)

Lemma concat_firstn (n : nat) (l : list string) :
  exists tail,
    String.concat "/" l = String.concat "/" (firstn (S n) l) ++ tail
    /\ (tail = "" \/ String.prefix "/" tail = true).
Proof.
  revert n; induction l as [|h t IH]; intro n.
  - exists "". split; [reflexivity | now left].
  - destruct t as [|h2 t].
    + exists "". simpl. rewrite firstn_nil. simpl. rewrite append_nil_r.
      split; [reflexivity | now left].
    + destruct n as [|n].
      * exists ("/" ++ String.concat "/" (h2 :: t)). split; [reflexivity|].
        right. exact (prefix_append "/" _).
      * destruct (IH n) as (tail & E & T). exists tail. split; [|exact T].
        change (String.concat "/" (h :: h2 :: t))
          with (h ++ "/" ++ String.concat "/" (h2 :: t)).
        rewrite E.
        change (firstn (S (S n)) (h :: h2 :: t)) with (h :: firstn (S n) (h2 :: t)).
        change (firstn (S n) (h2 :: t)) with (h2 :: firstn n t).
        change (String.concat "/" (h :: h2 :: firstn n t))
          with (h ++ "/" ++ String.concat "/" (h2 :: firstn n t)).
        now rewrite !append_assoc.
Qed.

Lemma base_path_truncates (pathname : string) (i : nat) :
  Js.indexOf "openai" (Js.split_slash pathname) = Some i ->
  exists tail, pathname = base_path pathname ++ tail
               /\ (tail = "" \/ String.prefix "/" tail = true).
Proof.
  intro E. unfold base_path. rewrite E. unfold Js.join_slash.
  replace (i + 1) with (S i) by lia.
  destruct (concat_firstn i (Js.split_slash pathname)) as (tail & H & T).
  exists tail. split; [|exact T]. rewrite <- H. symmetry. apply join_split.
Qed.

Lemma In_firstn_indexOf (x : string) (n : nat) (l : list string) :
  In x (firstn n l) -> exists j, Js.indexOf x l = Some j /\ j < n.
Proof.
  revert n; induction l as [|p l IH]; intros n H.
  - rewrite firstn_nil in H. destruct H.
  - destruct n as [|n]; [destruct H|]. simpl in *.
    destruct (String.eqb_spec p x) as [->|ne].
    + exists 0. split; [reflexivity | lia].
    + destruct H as [->|H]; [congruence|].
      destruct (IH _ H) as (j & -> & L). exists (S j). split; [reflexivity | lia].
Qed.

(** The kept path holds no [deployments] part when the first [openai]
    part of the pathname comes before its first [deployments] part. *)
Lemma base_path_no_deployments (pathname : string) :
  (forall i j, Js.indexOf "openai" (Js.split_slash pathname) = Some i ->
               Js.indexOf "deployments" (Js.split_slash pathname) = Some j -> i < j) ->
  ~ In "deployments" (Js.split_slash (base_path pathname)).
Proof.
  intros H I. unfold base_path in I.
  destruct (Js.indexOf "openai" (Js.split_slash pathname)) as [i|] eqn:E.
  - destruct (firstn_indexOf _ _ _ E) as (b & Eb & _).
    rewrite split_join in I.
    + destruct (In_firstn_indexOf _ _ _ I) as (j & Ej & L).
      specialize (H i j eq_refl Ej). lia.
    + rewrite Eb. now destruct b.
    + apply Forall_forall. intros p Hp.
      apply (proj1 (Forall_forall _ _) (split_slash_free pathname)).
      rewrite <- (firstn_skipn (i + 1) (Js.split_slash pathname)).
      apply in_or_app. now left.
  - simpl in I. destruct I as [I|[I|[]]]; discriminate.
Qed.

(** C1, as the code has it.  For an input that parses as a URL whose path
    is not opaque, whose pathname reads [a/deployments/<name>rest] with the
    marker not in [a], and whose first [api-version] parameter has a value
    [v] that is not empty: the deployment returned is [name] and the version
    is [v], whatever the defaults; the base URL is the origin followed by
    the kept path (and the fragment, if any, less one final slash), with no
    query; the kept path is [/openai] when the pathname has no [openai]
    part, and otherwise the pathname cut right after its first [openai]
    part; it holds no [deployments] part when the first [openai] part comes
    before the first [deployments] part. *)
Theorem portal_url_extracts (newURL : string -> option Url.t) (input : string)
    (d : Defaults) (url : Url.t) (a name rest v : string) :
  newURL input = Some url ->
  Url.opaque url = false ->
  Url.pathname url = a ++ "/deployments/" ++ name ++ rest ->
  Js.includes a "/deployments" = false ->
  slash_free name = true -> name <> "" ->
  rest = "" \/ String.prefix "/" rest = true ->
  Url.searchParams_get url "api-version" = Some v -> v <> "" ->
  let r := parseAzureEndpoint newURL input d in
  let path := base_path (Url.pathname url) in
  deployment r = name
  /\ apiVersion r = v
  /\ baseUrl r = Js.strip_trailing_slash (origin url path ++ path ++ fragment_text url)
  /\ (Url.fragment url = None -> baseUrl r = origin url path ++ path)
  /\ (Js.indexOf "openai" (Js.split_slash (Url.pathname url)) = None ->
      path = "/openai")
  /\ (forall i, Js.indexOf "openai" (Js.split_slash (Url.pathname url)) = Some i ->
      exists tail, Url.pathname url = path ++ tail
                   /\ (tail = "" \/ String.prefix "/" tail = true))
  /\ last (Js.split_slash path) "" = "openai"
  /\ ((forall i j, Js.indexOf "openai" (Js.split_slash (Url.pathname url)) = Some i ->
                   Js.indexOf "deployments" (Js.split_slash (Url.pathname url)) = Some j ->
                   i < j) ->
      ~ In "deployments" (Js.split_slash path)).
Proof.
  intros H O P I F N R Q V r path.
  assert (Hr : r = parse_url_branch url d)
    by (unfold r, parseAzureEndpoint; now rewrite H).
  repeat split.
  - rewrite Hr. unfold parse_url_branch. simpl.
    now rewrite P, (match_deployment_shape a name rest I F N R).
  - rewrite Hr. unfold parse_url_branch. simpl. rewrite Q.
    destruct v; [congruence | reflexivity].
  - rewrite Hr. now apply url_branch_base.
  - intro Fr. rewrite Hr. now apply url_branch_base_plain.
  - intro E. unfold path, base_path. now rewrite E.
  - intros i E. exact (base_path_truncates _ _ E).
  - exact (proj1 (proj2 (base_path_shape (Url.pathname url)))).
  - exact (base_path_no_deployments (Url.pathname url)).
Qed.

(** The statement at the portal address of the specification's example. *)
Lemma portal_url_extracts_witness :
  let r := parseAzureEndpoint Url.parse
             "https://foo.openai.azure.com/openai/deployments/gpt-5/chat/completions?api-version=2024-10-01"
             (mkDefaults "other" "1999-01-01") in
  deployment r = "gpt-5" /\ apiVersion r = "2024-10-01"
  /\ baseUrl r = "https://foo.openai.azure.com" ++ "/openai".
Proof.
  pose proof (portal_url_extracts Url.parse
    "https://foo.openai.azure.com/openai/deployments/gpt-5/chat/completions?api-version=2024-10-01"
    (mkDefaults "other" "1999-01-01")
    (Url.mk "https" (Some "foo.openai.azure.com") false
            "/openai/deployments/gpt-5/chat/completions"
            (Some "api-version=2024-10-01") None [("api-version", "2024-10-01")])
    "/openai" "gpt-5" "/chat/completions" "2024-10-01"
    eq_refl eq_refl eq_refl eq_refl eq_refl) as H.
  assert (N1 : "gpt-5" <> "") by discriminate.
  assert (N2 : "2024-10-01" <> "") by discriminate.
  specialize (H N1 (or_intror eq_refl) eq_refl N2).
  destruct H as (D & A & _ & B & _).
  split; [exact D|]. split; [exact A|]. exact (B eq_refl).
Defined.

(** C1 as stated fails in three ways: an [api-version] parameter with an
    empty value leaves the default in place; a pathname whose [deployments]
    part comes before its [openai] part keeps the deployment in the base
    URL; a URL with an opaque path keeps its whole path. *)
Lemma portal_url_extracts_counterexample :
  (option_map (fun u => Url.searchParams_get u "api-version")
     (Url.parse "https://h.example/openai/deployments/gpt?api-version=")
   = Some (Some "")
   /\ apiVersion (parseAzureEndpoint Url.parse
                    "https://h.example/openai/deployments/gpt?api-version="
                    (mkDefaults "other" "1999-01-01")) = "1999-01-01")
  /\ baseUrl (parseAzureEndpoint Url.parse
                "https://h.example/deployments/gpt/openai?api-version=1"
                hardcoded_defaults)
     = "https://h.example" ++ "/deployments/gpt/openai"
  /\ baseUrl (parseAzureEndpoint Url.parse
                "foo.example:x/deployments/gpt?api-version=1" hardcoded_defaults)
     = "foo.example:x/deployments/gpt".
Proof. repeat split; vm_compute; reflexivity. Qed.

End UrlBranch.

(* ===================================================================== *)
(** * The configuration store *)
(* ===================================================================== *)

Module Store.

Import Spec.

(** *** Reading the prior settings *)

(** C10, as the code has it.  Nothing is returned exactly when the chain
    [config?.provider?.azure?.options] yields no truthy value: the entry is
    missing, or it is [null], [false], [0] or the empty string.  When the
    options are an object, a record is returned, with the empty string for
    a missing [baseURL] or [apiKey], [2025-01-01-preview] for a missing
    [apiVersion], [model-router] when [models] is missing or an empty
    object, the stored value for each field that holds a truthy one, and
    the first key of [models] when that key is not empty. *)
Theorem settings_fallbacks (config : JSON) :
  let azure := Doc.opt_prop (Doc.opt_prop (Some config) "provider") "azure" in
  let options := Doc.opt_prop azure "options" in
  (getExistingAzureSettings config = None <-> Doc.truthy_opt options = false)
  /\ (forall az ofs,
        azure = Some az -> options = Some (JObj ofs) ->
        exists s,
          getExistingAzureSettings config = Some s
          /\ (Doc.assoc_get "baseURL" ofs = None -> s_baseUrl s = JStr "")
          /\ (Doc.assoc_get "apiKey" ofs = None -> s_apiKey s = JStr "")
          /\ (Doc.assoc_get "apiVersion" ofs = None ->
              s_apiVersion s = JStr "2025-01-01-preview")
          /\ (Doc.get_prop az "models" = None \/ Doc.get_prop az "models" = Some (JObj []) ->
              s_deployment s = "model-router")
          /\ (forall x, Doc.assoc_get "baseURL" ofs = Some x -> Doc.truthy x = true ->
                        s_baseUrl s = x)
          /\ (forall x, Doc.assoc_get "apiKey" ofs = Some x -> Doc.truthy x = true ->
                        s_apiKey s = x)
          /\ (forall x, Doc.assoc_get "apiVersion" ofs = Some x -> Doc.truthy x = true ->
                        s_apiVersion s = x)
          /\ (forall k m ms, Doc.get_prop az "models" = Some (JObj ((k, m) :: ms)) ->
                             k <> "" -> s_deployment s = k)).
Proof.
  intros azure options. unfold getExistingAzureSettings.
  fold azure. fold options.
  assert (Hopt : options = Doc.opt_prop azure "options") by reflexivity.
  clearbody options. clearbody azure. split.
  - destruct (Doc.truthy_opt options) eqn:T; simpl.
    + split; [|discriminate]. destruct azure as [az|].
      * destruct options; [discriminate | discriminate T].
      * rewrite Hopt in T. discriminate T.
    + split; reflexivity.
  - intros az ofs A O. rewrite A, O. simpl.
    eexists. split; [reflexivity|]. simpl.
    repeat split.
    + now intros ->.
    + now intros ->.
    + now intros ->.
    + now intros [-> | ->].
    + intros x -> T. simpl. now rewrite T.
    + intros x -> T. simpl. now rewrite T.
    + intros x -> T. simpl. now rewrite T.
    + intros k m ms -> N. simpl. destruct k; [congruence | reflexivity].
Qed.

Lemma settings_fallbacks_witness :
  getExistingAzureSettings
    (JObj [("provider", JObj [("azure", JObj [("options", JObj [])])])])
  = Some (mkSettings (JStr "") (JStr "") "model-router" (JStr "2025-01-01-preview")).
Proof.
  destruct (proj2 (settings_fallbacks
    (JObj [("provider", JObj [("azure", JObj [("options", JObj [])])])]))
    (JObj [("options", JObj [])]) [] eq_refl eq_refl)
    as (s & E & B & K & V & D & _).
  rewrite E. destruct s as [b k dp v]. simpl in *.
  now rewrite (B eq_refl), (K eq_refl), (V eq_refl), (D (or_introl eq_refl)).
Defined.

(** C10 as stated fails where the options are there but falsy: the entry
    exists, holding [false], and nothing is returned. *)
Lemma settings_fallbacks_counterexample :
  let config := JObj [("provider", JObj [("azure", JObj [("options", JBool false)])])] in
  Doc.opt_prop (Doc.opt_prop (Doc.opt_prop (Some config) "provider") "azure") "options"
    = Some (JBool false)
  /\ getExistingAzureSettings config = None.
Proof. split; reflexivity. Qed.

(** *** Properties read and written *)

Lemma assoc_get_set_same (k : string) (x : JSON) (fs : list (string * JSON)) :
  Doc.assoc_get k (Doc.assoc_set k x fs) = Some x.
Proof.
  induction fs as [|[k' v] fs IH]; simpl.
  - now rewrite String.eqb_refl.
  - destruct (String.eqb k' k) eqn:E; simpl; rewrite E; [reflexivity | exact IH].
Qed.

Lemma assoc_get_set_other (k k' : string) (x : JSON) (fs : list (string * JSON)) :
  k <> k' -> Doc.assoc_get k' (Doc.assoc_set k x fs) = Doc.assoc_get k' fs.
Proof.
  intro N. induction fs as [|[k0 v] fs IH]; simpl.
  - destruct (String.eqb_spec k k'); [contradiction | reflexivity].
  - destruct (String.eqb_spec k0 k) as [->|]; simpl.
    + destruct (String.eqb_spec k k'); [contradiction | reflexivity].
    + destruct (String.eqb k0 k'); [reflexivity | exact IH].
Qed.

Lemma assoc_set_same (k : string) (x : JSON) (fs : list (string * JSON)) :
  Doc.assoc_get k fs = Some x -> Doc.assoc_set k x fs = fs.
Proof.
  induction fs as [|[k' v] fs IH]; simpl; [discriminate|].
  destruct (String.eqb k' k); intro H.
  - now injection H as ->.
  - now rewrite IH.
Qed.

Lemma get_set_same (v v' : JSON) (k : string) (x : JSON) :
  Doc.set_prop v k x = Some v' -> Doc.get_prop v' k = Some x.
Proof.
  destruct v; simpl; intro H; try discriminate; injection H as <-; simpl;
    apply assoc_get_set_same.
Qed.

Lemma get_set_other (v v' : JSON) (k k' : string) (x : JSON) :
  Doc.set_prop v k x = Some v' -> k <> k' -> Doc.get_prop v' k' = Doc.get_prop v k'.
Proof.
  destruct v; simpl; intros H N; try discriminate; injection H as <-; simpl;
    now apply assoc_get_set_other.
Qed.

(** Writing the value a property already holds changes nothing. *)
Lemma set_same (v : JSON) (k : string) (x : JSON) :
  Doc.get_prop v k = Some x -> Doc.set_prop v k x = Some v.
Proof.
  destruct v; simpl; intro H; try discriminate; now rewrite (assoc_set_same _ _ _ H).
Qed.

Lemma set_truthy (v v' : JSON) (k : string) (x : JSON) :
  Doc.set_prop v k x = Some v' -> Doc.truthy v' = true.
Proof. destruct v; simpl; intro H; try discriminate; now injection H as <-. Qed.

Lemma falsy_no_prop (v : JSON) (k : string) :
  Doc.truthy v = false -> Doc.get_prop v k = None.
Proof. destruct v; simpl; intro H; try discriminate; reflexivity. Qed.

(** The steps of a merge that succeeds. *)
Lemma merge_steps (d b k : JSON) (dep : string) (v d1 : JSON) :
  merge d b k dep v = Some d1 ->
  exists c1 c2 prov',
    let config := if Doc.truthy d then d else JObj [] in
    Doc.set_prop config "$schema" (JStr "https://opencode.ai/config.json") = Some c1
    /\ Doc.set_prop c1 "model" (JStr ("azure/" ++ dep)) = Some c2
    /\ Doc.set_prop (Doc.or_else (Doc.get_prop c2 "provider") (JObj [])) "azure"
         (azure_entry b k dep v) = Some prov'
    /\ Doc.set_prop c2 "provider" prov' = Some d1.
Proof.
  unfold merge. intro H.
  destruct (Doc.set_prop _ "$schema" _) as [c1|] eqn:E1; [|discriminate].
  destruct (Doc.set_prop c1 "model" _) as [c2|] eqn:E2; [|discriminate].
  destruct (Doc.set_prop _ "azure" _) as [p|] eqn:E3; [|discriminate].
  now exists c1, c2, p.
Qed.

(** C3.  When the merge step yields a document, applying it again with the
    same values yields that very document; the document holds the schema
    marker, the model reference and, under [provider.azure], exactly the
    entry built from the new values, whatever was there before; every other
    top-level key reads as in the starting document, and so does every
    other key of [provider]. *)
Theorem merge_idempotent_frame (d b k : JSON) (dep : string) (v d1 : JSON) :
  merge d b k dep v = Some d1 ->
  merge d1 b k dep v = Some d1
  /\ Doc.get_prop d1 "$schema" = Some (JStr "https://opencode.ai/config.json")
  /\ Doc.get_prop d1 "model" = Some (JStr ("azure/" ++ dep))
  /\ Doc.opt_prop (Doc.get_prop d1 "provider") "azure" = Some (azure_entry b k dep v)
  /\ (forall key, key <> "$schema" -> key <> "model" -> key <> "provider" ->
                  Doc.get_prop d1 key = Doc.get_prop d key)
  /\ (forall key, key <> "azure" ->
                  Doc.opt_prop (Doc.get_prop d1 "provider") key
                  = Doc.opt_prop (Doc.get_prop d "provider") key).
Proof.
  intro H. destruct (merge_steps _ _ _ _ _ _ H) as (c1 & c2 & p & E1 & E2 & E3 & E4).
  cbv zeta in E1.
  assert (S1 : Doc.get_prop d1 "$schema" = Some (JStr "https://opencode.ai/config.json")).
  { rewrite (get_set_other _ _ _ _ _ E4) by discriminate.
    rewrite (get_set_other _ _ _ _ _ E2) by discriminate.
    exact (get_set_same _ _ _ _ E1). }
  assert (S2 : Doc.get_prop d1 "model" = Some (JStr ("azure/" ++ dep))).
  { rewrite (get_set_other _ _ _ _ _ E4) by discriminate.
    exact (get_set_same _ _ _ _ E2). }
  assert (S3 : Doc.get_prop d1 "provider" = Some p) by exact (get_set_same _ _ _ _ E4).
  assert (S4 : Doc.get_prop p "azure" = Some (azure_entry b k dep v))
    by exact (get_set_same _ _ _ _ E3).
  assert (Tp : Doc.truthy p = true) by exact (set_truthy _ _ _ _ E3).
  assert (Pd : Doc.get_prop c2 "provider" =
               Doc.get_prop (if Doc.truthy d then d else JObj []) "provider").
  { rewrite (get_set_other _ _ _ _ _ E2) by discriminate.
    now rewrite (get_set_other _ _ _ _ _ E1) by discriminate. }
  split; [|split; [|split; [|split; [|split]]]].
  - unfold merge. rewrite (set_truthy _ _ _ _ E4).
    rewrite (set_same _ _ _ S1), (set_same _ _ _ S2), S3. simpl. rewrite Tp.
    rewrite (set_same _ _ _ S4). exact (set_same _ _ _ S3).
  - exact S1.
  - exact S2.
  - rewrite S3. destruct p; try discriminate Tp; exact S4.
  - intros key N1 N2 N3.
    rewrite (get_set_other _ _ _ _ _ E4) by congruence.
    rewrite (get_set_other _ _ _ _ _ E2) by congruence.
    rewrite (get_set_other _ _ _ _ _ E1) by congruence.
    destruct (Doc.truthy d) eqn:T; [reflexivity|].
    now rewrite (falsy_no_prop _ _ T).
  - intros key N. rewrite S3.
    assert (Q : Doc.get_prop p key =
                Doc.get_prop (Doc.or_else (Doc.get_prop c2 "provider") (JObj [])) key)
      by (apply (get_set_other _ _ _ _ _ E3); congruence).
    transitivity (Doc.get_prop p key); [destruct p; try discriminate Tp; reflexivity|].
    rewrite Q, Pd.
    destruct (Doc.truthy d) eqn:T.
    + destruct (Doc.get_prop d "provider") as [o|]; [|reflexivity].
      simpl. destruct (Doc.truthy o) eqn:To.
      * destruct o; try discriminate To; reflexivity.
      * destruct o; try discriminate To; reflexivity.
    + rewrite (falsy_no_prop _ _ T). reflexivity.
Qed.

Lemma merge_idempotent_frame_witness :
  let d := JObj [("agent", JStr "keep"); ("provider", JObj [("other", JNull)])] in
  exists d1,
    merge d (JStr "https://h.example/openai") (JStr "key") "gpt" (JStr "2024-10-01") = Some d1
    /\ merge d1 (JStr "https://h.example/openai") (JStr "key") "gpt" (JStr "2024-10-01") = Some d1
    /\ Doc.get_prop d1 "agent" = Some (JStr "keep").
Proof.
  intro d. eexists. split; [reflexivity|].
  match goal with |- merge ?x _ _ _ _ = _ /\ _ =>
    destruct (merge_idempotent_frame d (JStr "https://h.example/openai") (JStr "key")
                "gpt" (JStr "2024-10-01") x eq_refl) as (I & _ & _ & _ & F & _)
  end.
  split; [exact I|]. rewrite F by discriminate. reflexivity.
Defined.

(** *** When the merge step yields a document *)


(** *** Saving and loading again *)

Lemma assoc_get_persisted (k : string) (fs : list (string * JSON)) :
  Doc.assoc_get k (map (fun kv => (fst kv, persisted (snd kv))) fs)
  = option_map persisted (Doc.assoc_get k fs).
Proof.
  induction fs as [|[k' x] fs IH]; simpl; [reflexivity|].
  destruct (String.eqb k' k); [reflexivity | exact IH].
Qed.

Lemma get_prop_persisted_obj (fs : list (string * JSON)) (k : string) :
  Doc.get_prop (persisted (JObj fs)) k = option_map persisted (Doc.get_prop (JObj fs) k).
Proof. simpl. apply assoc_get_persisted. Qed.

Lemma persisted_entry (b k dep v : string) :
  persisted (azure_entry (JStr b) (JStr k) dep (JStr v))
  = azure_entry (JStr b) (JStr k) dep (JStr v).
Proof. reflexivity. Qed.

(** Reading the settings of a document whose [provider] is an object that
    holds the entry under [azure]. *)
Lemma settings_of_entry (fs pfs : list (string * JSON)) (b k dep v : string) :
  Doc.assoc_get "provider" fs = Some (JObj pfs) ->
  Doc.assoc_get "azure" pfs = Some (azure_entry (JStr b) (JStr k) dep (JStr v)) ->
  dep <> "" -> v <> "" ->
  getExistingAzureSettings (JObj fs)
  = Some (mkSettings (JStr b) (JStr k) dep (JStr v)).
Proof.
  intros P A D V. unfold getExistingAzureSettings. simpl. rewrite P. simpl.
  rewrite A. simpl.
  destruct dep; [congruence|]. destruct v; [congruence|].
  destruct b, k; reflexivity.
Qed.

(** C4, as the code has it.  When the starting document is not an array
    and holds no array under [provider], and the deployment and the version
    are not empty, the document the merge step yields, once saved and
    loaded again, gives back the base URL, the key, the deployment and the
    version it was merged from. *)
Theorem store_round_trip (d : JSON) (b k dep v : string) (d1 : JSON) :
  merge d (JStr b) (JStr k) dep (JStr v) = Some d1 ->
  is_array d = false ->
  match Doc.get_prop d "provider" with Some p => is_array p | None => false end = false ->
  dep <> "" -> v <> "" ->
  getExistingAzureSettings (loadExistingConfig (persist d1))
  = Some (mkSettings (JStr b) (JStr k) dep (JStr v)).
Proof.
  intros H Ad Ap D V.
  destruct (merge_steps _ _ _ _ _ _ H) as (c1 & c2 & p & E1 & E2 & E3 & E4).
  cbv zeta in E1.
  assert (Pd : Doc.get_prop c2 "provider" =
               Doc.get_prop (if Doc.truthy d then d else JObj []) "provider").
  { rewrite (get_set_other _ _ _ _ _ E2) by discriminate.
    now rewrite (get_set_other _ _ _ _ _ E1) by discriminate. }
  assert (Hp : exists pfs, p = JObj pfs
                 /\ Doc.assoc_get "azure" pfs = Some (azure_entry (JStr b) (JStr k) dep (JStr v))).
  { pose proof (get_set_same _ _ _ _ E3) as G.
    rewrite Pd in E3.
    assert (Np : is_array (Doc.or_else
                  (Doc.get_prop (if Doc.truthy d then d else JObj []) "provider")
                  (JObj [])) = false).
    { destruct (Doc.truthy d).
      - destruct (Doc.get_prop d "provider") as [o|]; [|reflexivity].
        simpl. destruct (Doc.truthy o); [exact Ap | reflexivity].
      - reflexivity. }
    destruct (Doc.or_else _ _); try discriminate E3; try discriminate Np.
    simpl in E3. injection E3 as <-. eexists. split; [reflexivity | exact G]. }
  destruct Hp as (pfs & -> & A).
  assert (Hd : exists fs, d1 = JObj fs /\ Doc.assoc_get "provider" fs = Some (JObj pfs)).
  { pose proof (get_set_same _ _ _ _ E4) as G.
    assert (Nc : is_array (if Doc.truthy d then d else JObj []) = false)
      by (destruct (Doc.truthy d); [exact Ad | reflexivity]).
    destruct (if Doc.truthy d then d else JObj []); try discriminate E1;
      try discriminate Nc.
    simpl in E1. injection E1 as <-. simpl in E2. injection E2 as <-.
    simpl in E4. injection E4 as <-. eexists. split; [reflexivity | exact G]. }
  destruct Hd as (fs & -> & P).
  unfold persist, loadExistingConfig.
  change (persisted (JObj fs))
    with (JObj (map (fun kv => (fst kv, persisted (snd kv))) fs)).
  apply (settings_of_entry _ (map (fun kv => (fst kv, persisted (snd kv))) pfs));
    [| | exact D | exact V].
  - rewrite assoc_get_persisted, P. reflexivity.
  - rewrite assoc_get_persisted, A. reflexivity.
Qed.

Lemma store_round_trip_witness :
  let d := JObj [("agent", JStr "keep"); ("provider", JObj [("other", JNull)])] in
  option_map (fun d1 => getExistingAzureSettings (loadExistingConfig (persist d1)))
    (merge d (JStr "https://h.example/openai") (JStr "key") "gpt" (JStr "2024-10-01"))
  = Some (Some (mkSettings (JStr "https://h.example/openai") (JStr "key") "gpt"
                           (JStr "2024-10-01"))).
Proof.
  intro d.
  destruct (merge d (JStr "https://h.example/openai") (JStr "key") "gpt"
              (JStr "2024-10-01")) as [d1|] eqn:E; [|discriminate E].
  simpl. f_equal.
  apply (store_round_trip d "https://h.example/openai" "key" "gpt" "2024-10-01" d1 E);
    [reflexivity | reflexivity | discriminate | discriminate].
Defined.

(** C4 as stated fails in three ways: a starting document that is an array
    takes the settings as named properties, which are not saved; an empty
    version comes back as the fallback version; an empty deployment comes
    back as the fallback deployment. *)
Lemma store_round_trip_counterexample :
  option_map (fun d1 => getExistingAzureSettings (loadExistingConfig (persist d1)))
    (merge (JArr [] []) (JStr "https://h.example/openai") (JStr "key") "gpt"
           (JStr "2024-10-01"))
  = Some None
  /\ option_map (fun d1 => getExistingAzureSettings (loadExistingConfig (persist d1)))
       (merge (JObj []) (JStr "https://h.example/openai") (JStr "key") "gpt" (JStr ""))
     = Some (Some (mkSettings (JStr "https://h.example/openai") (JStr "key") "gpt"
                              (JStr "2025-01-01-preview")))
  /\ option_map (fun d1 => getExistingAzureSettings (loadExistingConfig (persist d1)))
       (merge (JObj []) (JStr "https://h.example/openai") (JStr "key") ""
              (JStr "2024-10-01"))
     = Some (Some (mkSettings (JStr "https://h.example/openai") (JStr "key")
                              "model-router" (JStr "2024-10-01"))).
Proof. repeat split; reflexivity. Qed.

End Store.

(* ===================================================================== *)
(** * The probe *)
(* ===================================================================== *)

Module ProbeFacts.

(** Once the request is sent, the promise resolves, whatever the network
    does: status 200 is a success, any other status a failure that carries
    the status and the response text, a connection error a failure with
    status 0 and the error text, and the timer a failure with status 0 and
    the text [Timeout]. *)
Lemma probe_resolves (newURL : string -> option Url.t) (endpoint apiKey : JSON)
    (dep : string) (ver : JSON) (net : Net) :
  probe_sent newURL endpoint apiKey dep ver = true ->
  exists r,
    testConnection newURL endpoint apiKey dep ver net = Some r
    /\ match net with
       | Response st data => ok r = Nat.eqb st 200 /\ status r = st /\ body r = data
       | ConnError msg => ok r = false /\ status r = 0 /\ body r = msg
       | NoAnswer => ok r = false /\ status r = 0 /\ body r = "Timeout"
       end.
Proof.
  intro S. unfold testConnection. rewrite S. eexists. split; [reflexivity|].
  destruct net; simpl; auto.
Qed.

(** The promise is rejected exactly when the request is not sent. *)
Lemma probe_rejected_iff (newURL : string -> option Url.t) (endpoint apiKey : JSON)
    (dep : string) (ver : JSON) (net : Net) :
  testConnection newURL endpoint apiKey dep ver net = None <->
  probe_sent newURL endpoint apiKey dep ver = false.
Proof.
  unfold testConnection. destruct (probe_sent _ _ _ _ _); split; congruence.
Qed.

Lemma probe_resolved_sent (newURL : string -> option Url.t) (endpoint apiKey : JSON)
    (dep : string) (ver : JSON) (net : Net) (r : ProbeResult) :
  testConnection newURL endpoint apiKey dep ver net = Some r ->
  probe_sent newURL endpoint apiKey dep ver = true.
Proof.
  unfold testConnection. destruct (probe_sent _ _ _ _ _); [reflexivity | discriminate].
Qed.

(** C7 at a failing input.  The endpoint parser turns the answer [foo bar]
    into the base URL [https://foo bar/openai]; the address the probe
    builds from it has a space in its host, [new URL] throws inside the
    promise executor, and the promise is rejected whatever the network
    would have done. *)
Theorem probe_rejects_unparsable_endpoint (net : Net) :
  baseUrl (parseAzureEndpoint Url.parse "foo bar" hardcoded_defaults)
  = "https://foo bar/openai"
  /\ Url.parse (probe_target (JStr "https://foo bar/openai") "model-router"
                             (JStr "2025-01-01-preview")) = None
  /\ testConnection Url.parse (JStr "https://foo bar/openai") (JStr "key")
       "model-router" (JStr "2025-01-01-preview") net = None.
Proof. repeat split; reflexivity. Qed.

End ProbeFacts.

(* ===================================================================== *)
(** * The masked prompt *)
(* ===================================================================== *)

Module Masking.

Import Spec JsFacts.

Lemma substring_length_le (n m : nat) (s : string) :
  String.length (substring n m s) <= m.
Proof.
  revert n m; induction s as [|c s IH]; intros n m.
  - destruct n, m; simpl; lia.
  - destruct n as [|n]; simpl.
    + destruct m as [|m]; simpl; [lia|]. specialize (IH 0 m). lia.
    + apply IH.
Qed.

Lemma masked_length (key : string) : String.length (masked key) <= 11.
Proof.
  unfold masked, Js.slice_to, Js.slice_last. rewrite !length_append.
  pose proof (substring_length_le 0 4 key).
  pose proof (substring_length_le (String.length key - 4) 4 key).
  simpl. lia.
Qed.

Lemma includes_length (s p : string) :
  Js.includes s p = true -> String.length p <= String.length s.
Proof.
  intro H. destruct (includes_inv _ _ H) as (a & b & ->).
  rewrite !length_append. lia.
Qed.

(** A key of twelve characters or more is never shown whole. *)
Lemma masked_hides_long_key (key : string) :
  12 <= String.length key -> Js.includes (masked key) key = false.
Proof.
  intro L. destruct (Js.includes (masked key) key) eqn:E; [|reflexivity].
  apply includes_length in E. pose proof (masked_length key). lia.
Qed.

(** A key of four characters or fewer is shown whole, twice. *)
Lemma masked_short_key (key : string) :
  String.length key <= 4 -> masked key = key ++ "..." ++ key.
Proof.
  intro L. unfold masked, Js.slice_to, Js.slice_last.
  replace (String.length key - 4) with 0 by lia.
  now rewrite (UrlBranch.substring_full key 4 L).
Qed.

(** C9 at failing inputs.  For the stored key [abc] the prompt shows
    [abc...abc], which contains the key; for the eleven-character key
    [abcd...efgh] the text shown is the key itself. *)
Theorem masked_shows_short_key :
  masked "abc" = "abc...abc"
  /\ Js.includes (masked "abc") "abc" = true
  /\ masked "abcd...efgh" = "abcd...efgh".
Proof. repeat split; reflexivity. Qed.

End Masking.

(* ===================================================================== *)
(** * The session *)
(* ===================================================================== *)

Module SessionFacts.

Import Spec.

Lemma only_ret (P : Event -> bool) {A} (a : A) : only P (ret a).
Proof. intro w. simpl. split; [reflexivity|]. now exists []. Qed.

Lemma only_halt (P : Event -> bool) {A} (o : Outcome) :
  only P (fun w => @Halt A o w).
Proof. intro w. simpl. split; [reflexivity|]. now exists []. Qed.

Lemma only_exit (P : Event -> bool) {A} (code : nat) : only P (@exit A code).
Proof. apply only_halt. Qed.

Lemma only_throw (P : Event -> bool) {A} : only P (@throw A).
Proof. apply only_halt. Qed.

Lemma only_emit (P : Event -> bool) (e : Event) : P e = true -> only P (emit e).
Proof.
  intros H w. simpl. split; [reflexivity|]. exists [e]. simpl. now rewrite H.
Qed.

Lemma only_next_answer (P : Event -> bool) : only P next_answer.
Proof.
  intro w. unfold next_answer. destruct (w_answers w); simpl;
    (split; [reflexivity | now exists []]).
Qed.

Lemma only_next_net (P : Event -> bool) : only P next_net.
Proof.
  intro w. unfold next_net. destruct (w_net w); simpl;
    (split; [reflexivity | now exists []]).
Qed.

Lemma only_bind (P : Event -> bool) {A B} (m : M A) (k : A -> M B) :
  only P m -> (forall a, only P (k a)) -> only P (bind m k).
Proof.
  intros Hm Hk w. unfold bind. specialize (Hm w). cbv zeta in Hm.
  destruct (m w) as [a w1|o w1]; [|exact Hm].
  specialize (Hk a w1). cbv zeta in *.
  destruct Hm as (F1 & e1 & T1 & P1). destruct Hk as (F2 & e2 & T2 & P2).
  split; [congruence|]. exists (e2 ++ e1)%list.
  rewrite T2, T1, app_assoc, forallb_app, P1, P2. now split.
Qed.

Lemma only_weaken (P Q : Event -> bool) {A} (m : M A) :
  (forall e, P e = true -> Q e = true) -> only P m -> only Q m.
Proof.
  intros I H w. destruct (H w) as (F & evs & T & E). split; [exact F|].
  exists evs. split; [exact T|]. rewrite forallb_forall in *. auto.
Qed.

Create HintDb session.
#[local] Hint Resolve only_ret only_halt only_exit only_throw only_next_answer
  only_next_net : session.

Ltac only_step :=
  repeat first
    [ apply only_bind; [|intro]
    | apply only_emit; reflexivity
    | solve [auto with session]
    | match goal with |- only _ (match ?x with _ => _ end) => destruct x end ].

Section Run.

Variable newURL : string -> option Url.t.
Variable env : Env.

Lemma only_question (q : string) (dv : JSON) : only is_prompt (question q dv).
Proof. unfold question. only_step. Qed.
#[local] Hint Resolve only_question : session.

Lemma only_ask (q dv : string) : only is_prompt (ask q dv).
Proof. unfold ask. only_step. Qed.
#[local] Hint Resolve only_ask : session.

Lemma only_ask_value (q : string) (dv : JSON) : only is_prompt (ask_value q dv).
Proof. unfold ask_value. only_step. Qed.
#[local] Hint Resolve only_ask_value : session.

Lemma only_askPassword (q : string) (ev : JSON) : only is_prompt (askPassword env q ev).
Proof. unfold askPassword. only_step. Qed.
#[local] Hint Resolve only_askPassword : session.

Lemma only_gather_reuse (ex : Settings) : only is_prompt (gather_reuse newURL env ex).
Proof. unfold gather_reuse. only_step. Qed.

Lemma only_gather_fresh : only is_prompt (gather_fresh newURL env).
Proof. unfold gather_fresh. only_step. Qed.
#[local] Hint Resolve only_gather_reuse only_gather_fresh : session.

(** Gathering the values only prompts. *)
Lemma only_gather (existingAzure : option Settings) :
  only is_prompt (gather newURL env existingAzure).
Proof. unfold gather. only_step. Qed.

Lemma only_probe (b k : JSON) (dep : string) (v : JSON) :
  only is_probe (probe newURL b k dep v).
Proof.
  unfold probe. only_step.
Qed.

(** Probing and the second round only prompt and probe. *)
Lemma only_verify (g : Gathered) : only prompt_or_probe (verify newURL env g).
Proof.
  assert (Hq : forall A (m : M A), only is_prompt m -> only prompt_or_probe m)
    by (intros A m; apply only_weaken; intros e H; unfold prompt_or_probe; now rewrite H).
  assert (Hp : forall A (m : M A), only is_probe m -> only prompt_or_probe m)
    by (intros A m; apply only_weaken; intros e H; unfold prompt_or_probe;
        rewrite H; apply orb_true_r).
  unfold verify. apply only_bind; [apply Hp, only_probe|]. intro r.
  destruct (ok r); [auto with session|].
  destruct (nonInteractive env); [auto with session|].
  apply only_bind; [apply Hq, only_ask|]. intro dep.
  apply only_bind; [apply Hq, only_ask_value|]. intro ver.
  apply only_bind; [apply Hp, only_probe|]. intro r'.
  destruct (ok r'); [auto with session|].
  apply only_bind; [apply Hq, only_ask|]. intro c.
  destruct (negb _); auto with session.
Qed.

Lemma run_unfold (w : World) :
  run newURL env w =
  match bind (gather newURL env (prior w)) (fun g0 =>
        bind (verify newURL env g0) (fun g =>
        bind (emit (EMkdir ConfigDir)) (fun _ =>
          match merge (loadExistingConfig (w_file w)) (g_baseUrl g) (g_apiKey g)
                      (g_deployment g) (g_apiVersion g) with
          | None => throw
          | Some config =>
              bind (mcp_step env config) (fun config' =>
              bind (write_config config') (fun _ => binary_step env))
          end))) (after_fetch w) with
  | Go _ w' => (Completed, w')
  | Halt o w' => (o, w')
  end.
Proof. reflexivity. Qed.

(** C5, as the code has it.  In unattended mode, when no prior endpoint
    exists (no settings at all, or settings whose base URL is empty), the
    run ends with exit code 1 right after the defaults are fetched: no
    prompt, no probe, no directory made, no file written, the
    configuration file as it was. *)
Theorem unattended_without_endpoint (w : World) :
  nonInteractive env = true ->
  Doc.truthy_opt (prior_baseUrl (prior w)) = false ->
  run newURL env w = (Exited 1, after_fetch w).
Proof.
  intros N B. rewrite run_unfold. unfold bind at 1. unfold gather.
  rewrite N, B. reflexivity.
Qed.

Lemma mcp_step_returns (config : JSON) (w : World) :
  exists c w', mcp_step env config w = Go c w'.
Proof.
  unfold mcp_step, bind, emit, ret.
  destruct (pkgExists env), (npmOk env); simpl; eauto;
    destruct (Doc.set_prop config "mcp" _); eauto;
    destruct (Doc.set_prop (Doc.or_else _ _) "mcp-marketplace" _); eauto;
    destruct (Doc.set_prop _ "mcp" _); eauto.
Qed.

Lemma binary_step_returns (w : World) : exists w', binary_step env w = Go tt w'.
Proof.
  unfold binary_step, bind, emit, ret. destruct (binary env); simpl; eauto.
Qed.

(** A run that does not reach its end leaves the configuration file as it
    found it: every exit and every uncaught exception comes before the one
    write of the file. *)
Lemma unfinished_run_keeps_file (w : World) :
  fst (run newURL env w) <> Completed ->
  w_file (snd (run newURL env w)) = w_file w.
Proof.
  destruct (run newURL env w) as [o w'] eqn:R. simpl.
  rewrite run_unfold in R. unfold bind at 1 in R.
  pose proof (only_gather (prior w) (after_fetch w)) as Hg. cbv zeta in Hg.
  destruct (gather newURL env (prior w) (after_fetch w)) as [g wg|o1 wg].
  2:{ injection R as <- <-. intros _. exact (proj1 Hg). }
  unfold bind at 1 in R.
  pose proof (only_verify g wg) as Hv. cbv zeta in Hv.
  destruct (verify newURL env g wg) as [g' wv|o1 wv].
  2:{ injection R as <- <-. intros _. rewrite (proj1 Hv). exact (proj1 Hg). }
  unfold bind at 1 in R. unfold emit at 1 in R.
  destruct (merge _ _ _ _ _) as [config|].
  - unfold bind at 1 in R.
    destruct (mcp_step_returns config
                (mkWorld (w_answers wv) (w_net wv) (w_file wv)
                         (EMkdir ConfigDir :: w_trace wv))) as (c & w1 & E1).
    rewrite E1 in R. unfold bind at 1 in R. unfold write_config at 1 in R.
    destruct (binary_step_returns
                (mkWorld (w_answers w1) (w_net w1) (persist c)
                         (EWriteFile ConfigPath :: w_trace w1))) as (w2 & E2).
    rewrite E2 in R. injection R as <- <-. intro H. now elim H.
  - injection R as <- <-. intros _. simpl. rewrite (proj1 Hv). exact (proj1 Hg).
Qed.

(** What [verify] does once the first probe has resolved to a failure with
    prompts allowed, up to the resolution of the second probe. *)
Lemma verify_retry (wg : World) (g : Gathered) (n1 n2 : Net) (nets : list Net)
    (a1 a2 : string) (more : list Answer) (r1 r2 : ProbeResult) :
  nonInteractive env = false ->
  w_net wg = n1 :: n2 :: nets ->
  w_answers wg = Typed a1 :: Typed a2 :: more ->
  let dep' := if Js.nonempty a1 then a1 else g_deployment g in
  let ver' := if Js.nonempty a2 then JStr a2 else g_apiVersion g in
  let g' := mkGathered (g_baseUrl g) dep' ver' (g_apiKey g) in
  let w2 := mkWorld more nets (w_file wg)
              (EProbe (probe_target (g_baseUrl g) dep' ver') (g_apiKey g)
               :: EQuestion "API Version" (g_apiVersion g)
               :: EQuestion "Deployment name" (JStr (g_deployment g))
               :: EProbe (probe_target (g_baseUrl g) (g_deployment g) (g_apiVersion g))
                         (g_apiKey g)
               :: w_trace wg) in
  testConnection newURL (g_baseUrl g) (g_apiKey g) (g_deployment g) (g_apiVersion g) n1
    = Some r1 ->
  ok r1 = false ->
  testConnection newURL (g_baseUrl g) (g_apiKey g) dep' ver' n2 = Some r2 ->
  verify newURL env g wg =
  if ok r2 then Go g' w2
  else bind (ask "Save config anyway? (y/N)" "N")
            (fun cont => if negb (String.eqb (Js.toLowerCase cont) "y")
                         then exit 1 else ret g') w2.
Proof.
  intros N Hn Ha dep' ver' g' w2 T1 O1 T2.
  pose proof (ProbeFacts.probe_resolved_sent _ _ _ _ _ _ _ T1) as S1.
  pose proof (ProbeFacts.probe_resolved_sent _ _ _ _ _ _ _ T2) as S2.
  destruct wg as [ans net file tr]. simpl in Hn, Ha. subst ans net.
  unfold verify, probe. rewrite S1.
  unfold ask_value, ask at 1. unfold question.
  unfold bind, emit, next_net, next_answer, ret.
  cbn [w_net w_answers w_file w_trace].
  rewrite T1, O1, N.
  cbn [w_net w_answers w_file w_trace g_baseUrl g_apiKey g_deployment g_apiVersion].
  fold dep'. fold ver'. rewrite S2.
  cbn [w_net w_answers w_file w_trace].
  rewrite T2. fold g'. destruct (ok r2); reflexivity.
Qed.

(** C6.  With prompts allowed, once the values are gathered: if the probe
    resolves to a failure, the deployment and the version are asked again
    (the base URL and the key stay), and exactly one more probe is made,
    with the answers.  If that probe succeeds the session goes on with the
    new values.  If it fails too, the confirmation is asked; an answer
    other than [y] or [Y] ends the run with exit code 1, and the session
    goes on otherwise.  In the declined run nothing happened before the
    first probe but the defaults fetch and prompts, nothing after it but
    two questions, the second probe and the confirmation, and the
    configuration file is the one the run started with. *)
Theorem decline_after_failed_retry (w wg : World) (g : Gathered)
    (n1 n2 : Net) (nets : list Net) (a1 a2 : string) (more : list Answer)
    (r1 r2 : ProbeResult) :
  nonInteractive env = false ->
  gather newURL env (prior w) (after_fetch w) = Go g wg ->
  w_net wg = n1 :: n2 :: nets ->
  w_answers wg = Typed a1 :: Typed a2 :: more ->
  let dep' := if Js.nonempty a1 then a1 else g_deployment g in
  let ver' := if Js.nonempty a2 then JStr a2 else g_apiVersion g in
  let g' := mkGathered (g_baseUrl g) dep' ver' (g_apiKey g) in
  let retried :=
    EProbe (probe_target (g_baseUrl g) dep' ver') (g_apiKey g)
    :: EQuestion "API Version" (g_apiVersion g)
    :: EQuestion "Deployment name" (JStr (g_deployment g))
    :: EProbe (probe_target (g_baseUrl g) (g_deployment g) (g_apiVersion g)) (g_apiKey g)
    :: w_trace wg in
  testConnection newURL (g_baseUrl g) (g_apiKey g) (g_deployment g) (g_apiVersion g) n1
    = Some r1 ->
  ok r1 = false ->
  testConnection newURL (g_baseUrl g) (g_apiKey g) dep' ver' n2 = Some r2 ->
  (ok r2 = true ->
     verify newURL env g wg = Go g' (mkWorld more nets (w_file w) retried))
  /\ (ok r2 = false -> forall a3 rest, more = Typed a3 :: rest ->
       let w3 := mkWorld rest nets (w_file w)
                   (EQuestion "Save config anyway? (y/N)" (JStr "N") :: retried) in
       verify newURL env g wg = (if declines a3 then Halt (Exited 1) w3 else Go g' w3)
       /\ (declines a3 = true -> run newURL env w = (Exited 1, w3)))
  /\ exists evs, w_trace wg = (evs ++ EFetchDefaults :: w_trace w)%list
                 /\ forallb is_prompt evs = true.
Proof.
  intros N G Hn Ha dep' ver' g' retried T1 O1 T2.
  pose proof (only_gather (prior w) (after_fetch w)) as Hg.
  rewrite G in Hg. cbv zeta in Hg. destruct Hg as (Hf & evs & Ht & He).
  simpl in Hf.
  pose proof (verify_retry wg g n1 n2 nets a1 a2 more r1 r2 N Hn Ha T1 O1 T2) as V.
  cbv zeta in V. fold dep' in V. fold ver' in V. fold g' in V. fold retried in V.
  rewrite Hf in V.
  split; [|split; [|now exists evs]].
  - intro O2. now rewrite O2 in V.
  - intros O2 a3 rest -> w3. rewrite O2 in V.
    assert (V' : verify newURL env g wg
                 = if declines a3 then Halt (Exited 1) w3 else Go g' w3).
    { rewrite V. unfold ask, question, bind, emit, next_answer, ret, exit, declines.
      cbn [w_net w_answers w_file w_trace].
      destruct (negb _); reflexivity. }
    split; [exact V'|]. intro D.
    rewrite run_unfold. unfold bind at 1. rewrite G.
    unfold bind at 1. now rewrite V', D.
Qed.

End Run.

(** The statement of C5 with no configuration file at all. *)
Lemma unattended_without_endpoint_witness :
  run Url.parse (mkEnv true true hardcoded_defaults "/m" false true Installed)
      (mkWorld [] [] NoFile [])
  = (Exited 1, mkWorld [] [] NoFile [EFetchDefaults]).
Proof.
  apply (unattended_without_endpoint Url.parse
           (mkEnv true true hardcoded_defaults "/m" false true Installed)
           (mkWorld [] [] NoFile [])); reflexivity.
Defined.

(** C5 as stated fails: the unattended run without prior state has made a
    network request, the defaults fetch, when it exits. *)
Lemma unattended_without_endpoint_counterexample :
  let w := mkWorld [] [] NoFile [] in
  let env := mkEnv true true hardcoded_defaults "/m" false true Installed in
  fst (run Url.parse env w) = Exited 1
  /\ existsb is_network (effects Url.parse env w) = true.
Proof. split; reflexivity. Qed.

(** In unattended mode with a stored endpoint but no stored key the run
    goes on to ask for the endpoint. *)
Example unattended_prompts_without_key :
  let config :=
    JObj [("provider",
           JObj [("azure",
                  JObj [("options",
                         JObj [("baseURL", JStr "https://h.example/openai")])])])] in
  run Url.parse (mkEnv true true hardcoded_defaults "/m" false true Installed)
      (mkWorld [] [] (Document config) [])
  = (Stalled,
     mkWorld [] [] (Document config)
       [EQuestion "Endpoint" (JStr "https://h.example/openai"); EFetchDefaults]).
Proof. reflexivity. Qed.

(** A first run in which the endpoint is typed as [foo bar]: the rejected
    promise of the probe ends the run with exit code 1, no request sent. *)
Example unparsable_endpoint_ends_run :
  run Url.parse (mkEnv false true hardcoded_defaults "/m" false true NoAsset)
      (mkWorld [Typed "foo bar"; Typed "key"; Typed ""] [] NoFile [])
  = (Exited 1,
     mkWorld [] [] NoFile
       [EQuestion "Deployment name" (JStr "model-router"); ESecret "API Key" None;
        EQuestion "Endpoint" (JStr ""); EFetchDefaults]).
Proof. reflexivity. Qed.

(** A run over a configuration whose stored key is [abc]: the key prompt
    shows [abc...abc]. *)
Example short_key_prompt :
  let config :=
    JObj [("provider",
           JObj [("azure",
                  JObj [("options",
                         JObj [("baseURL", JStr "https://h.example/openai");
                               ("apiKey", JStr "abc")])])])] in
  w_trace (snd (run Url.parse
                  (mkEnv false true hardcoded_defaults "/m" false true NoAsset)
                  (mkWorld [Typed ""] [] (Document config) [])))
  = [ESecret "API Key" (Some "abc...abc");
     EQuestion "Endpoint" (JStr "https://h.example/openai"); EFetchDefaults].
Proof. reflexivity. Qed.

(** The statement of C6 on a first run: host typed, key typed, both probes
    failing, the confirmation answered [n]. *)
Lemma decline_after_failed_retry_witness :
  let env := mkEnv false true hardcoded_defaults "/m" false true NoAsset in
  let w := mkWorld [Typed "h.example"; Typed "key"; Typed ""; Typed "d2"; Typed ""; Typed "n"]
                   [Response 404 "x"; ConnError "boom"] (Garbage "zz") [] in
  fst (run Url.parse env w) = Exited 1
  /\ w_file (snd (run Url.parse env w)) = Garbage "zz".
Proof.
  intros env w.
  destruct (decline_after_failed_retry Url.parse env w
    (mkWorld [Typed "d2"; Typed ""; Typed "n"] [Response 404 "x"; ConnError "boom"]
             (Garbage "zz")
             [EQuestion "Deployment name" (JStr "model-router");
              ESecret "API Key" None; EQuestion "Endpoint" (JStr ""); EFetchDefaults])
    (mkGathered (JStr "https://h.example/openai") "model-router"
                (JStr "2025-01-01-preview") (JStr "key"))
    (Response 404 "x") (ConnError "boom") [] "d2" "" [Typed "n"]
    (mkProbe false 404 "x") (mkProbe false 0 "boom")
    eq_refl eq_refl eq_refl eq_refl eq_refl eq_refl eq_refl) as (_ & R & _).
  destruct (R eq_refl "n" [] eq_refl) as [_ R'].
  rewrite (R' eq_refl). split; reflexivity.
Defined.

End SessionFacts.

(* ===================================================================== *)
(** * The defaults feed and the prior settings *)
(* ===================================================================== *)

Module DefaultsFacts.

Import Spec.

Lemma or_else_truthy (a : option JSON) (b : JSON) :
  Doc.truthy b = true -> Doc.truthy (Doc.or_else a b) = true.
Proof.
  intro B. unfold Doc.or_else. destruct a as [v|]; [|exact B].
  destruct (Doc.truthy v) eqn:T; [exact T | exact B].
Qed.

(** X1.  Whatever the feed answers, [fetchDefaults] returns a deployment
    and a version that are truthy.  They are the hard-coded pair whenever
    the request is rejected, the response is not [ok], its body is not
    JSON, or the body is [null]; and a field the body does not hold, or
    holds with a falsy value, keeps its hard-coded value while the other
    one is taken from the body. *)
Theorem fetched_defaults_never_empty (r : Fetched) :
  Doc.truthy (f_deployment (fetchDefaults r)) = true
  /\ Doc.truthy (f_apiVersion (fetchDefaults r)) = true
  /\ ((forall data, r = Responded true (Some data) -> data = JNull) ->
      fetchDefaults r = mkFetched (JStr "model-router") (JStr "2025-01-01-preview"))
  /\ (forall data, r = Responded true (Some data) ->
        Doc.truthy_opt (Doc.get_prop data "deployment") = false ->
        f_deployment (fetchDefaults r) = JStr "model-router")
  /\ (forall data, r = Responded true (Some data) ->
        Doc.truthy_opt (Doc.get_prop data "apiVersion") = false ->
        f_apiVersion (fetchDefaults r) = JStr "2025-01-01-preview")
  /\ (forall data x, r = Responded true (Some data) ->
        Doc.get_prop data "deployment" = Some x -> Doc.truthy x = true ->
        f_deployment (fetchDefaults r) = x)
  /\ (forall data x, r = Responded true (Some data) ->
        Doc.get_prop data "apiVersion" = Some x -> Doc.truthy x = true ->
        f_apiVersion (fetchDefaults r) = x).
Proof.
  split; [|split; [|split; [|split; [|split; [|split]]]]].
  - destruct r as [|[|] [data|]]; try reflexivity.
    destruct data; try reflexivity; simpl; now apply or_else_truthy.
  - destruct r as [|[|] [data|]]; try reflexivity.
    destruct data; try reflexivity; simpl; now apply or_else_truthy.
  - intro H. destruct r as [|[|] [data|]]; try reflexivity.
    now rewrite (H data eq_refl).
  - intros data -> T. destruct data; try reflexivity; simpl in *;
      unfold Doc.or_else; destruct (Doc.assoc_get _ _) as [x|]; try reflexivity;
      simpl in T; now rewrite T.
  - intros data -> T. destruct data; try reflexivity; simpl in *;
      unfold Doc.or_else; destruct (Doc.assoc_get _ _) as [x|]; try reflexivity;
      simpl in T; now rewrite T.
  - intros data x -> G T. destruct data; try discriminate G; simpl in *;
      rewrite G; simpl; now rewrite T.
  - intros data x -> G T. destruct data; try discriminate G; simpl in *;
      rewrite G; simpl; now rewrite T.
Qed.

Lemma fetched_defaults_never_empty_witness :
  fetchDefaults (Responded true (Some (JObj [("apiVersion", JStr "2030-01-01")])))
  = mkFetched (JStr "model-router") (JStr "2030-01-01").
Proof.
  pose proof (fetched_defaults_never_empty
    (Responded true (Some (JObj [("apiVersion", JStr "2030-01-01")]))))
    as (_ & _ & _ & D & _ & _ & V).
  specialize (D _ eq_refl eq_refl). specialize (V _ _ eq_refl eq_refl eq_refl).
  destruct (fetchDefaults _) as [a b]. simpl in *. now subst.
Defined.

(** X2.  The settings [getExistingAzureSettings] returns never hold an
    empty deployment or a falsy version, and their base URL and key are
    each either a truthy stored value or the empty string. *)
Theorem settings_never_empty (config : JSON) (ex : Settings) :
  getExistingAzureSettings config = Some ex ->
  s_deployment ex <> ""
  /\ Doc.truthy (s_apiVersion ex) = true
  /\ (Doc.truthy (s_baseUrl ex) = true \/ s_baseUrl ex = JStr "")
  /\ (Doc.truthy (s_apiKey ex) = true \/ s_apiKey ex = JStr "").
Proof.
  unfold getExistingAzureSettings.
  destruct (negb _); [discriminate|].
  destruct (Doc.opt_prop (Doc.opt_prop (Some config) "provider") "azure") as [az|];
    [|discriminate].
  destruct (Doc.opt_prop (Some az) "options") as [opts|]; [|discriminate].
  intro H. injection H as <-. simpl. repeat split.
  - destruct (Doc.object_keys _) as [|k ks]; [discriminate|].
    destruct k; [discriminate|]. simpl. discriminate.
  - now apply or_else_truthy.
  - unfold Doc.or_else. destruct (Doc.get_prop opts "baseURL") as [x|]; [|now right].
    destruct (Doc.truthy x) eqn:T; [now left | now right].
  - unfold Doc.or_else. destruct (Doc.get_prop opts "apiKey") as [x|]; [|now right].
    destruct (Doc.truthy x) eqn:T; [now left | now right].
Qed.

Lemma settings_never_empty_witness :
  exists ex,
    getExistingAzureSettings
      (JObj [("provider",
              JObj [("azure", JObj [("options", JObj [("apiKey", JNum "7")]);
                                    ("models", JObj [("", JNull)])])])]) = Some ex
    /\ s_deployment ex <> "" /\ Doc.truthy (s_apiVersion ex) = true.
Proof.
  eexists. split; [reflexivity|].
  match goal with |- s_deployment ?e <> _ /\ _ =>
    destruct (settings_never_empty
      (JObj [("provider",
              JObj [("azure", JObj [("options", JObj [("apiKey", JNum "7")]);
                                    ("models", JObj [("", JNull)])])])])
      e eq_refl) as (D & V & _)
  end.
  split; assumption.
Defined.

End DefaultsFacts.

(* ===================================================================== *)
(** * The endpoint parser: what every result has *)
(* ===================================================================== *)

Module ParserFacts.

Import Spec JsFacts PathFacts.

Lemma strip_empty (s : string) :
  Js.strip_trailing_slash s = "" -> s = "" \/ s = "/".
Proof.
  destruct s as [|c s]; [now left|].
  destruct s as [|d s]; simpl.
  - destruct (Ascii.eqb_spec c "/") as [->|]; [now right | discriminate].
  - discriminate.
Qed.

Lemma serialised_nonempty (u : Url.t) : Js.strip_trailing_slash (Url.toString u) <> "".
Proof.
  intro H. apply strip_empty in H. unfold Url.toString in H.
  destruct (Url.scheme u) as [|c sch]; simpl in H.
  - destruct H as [H|H]; discriminate H.
  - destruct H as [H|H]; [discriminate H|].
    injection H as _ H. destruct sch; discriminate H.
Qed.

Lemma take_segment_split (x : string) :
  exists rest, x = Js.take_segment x ++ rest
               /\ (rest = "" \/ String.prefix "/" rest = true)
               /\ slash_free (Js.take_segment x) = true.
Proof.
  induction x as [|c x IH]; simpl.
  - exists "". repeat split; auto.
  - destruct (Ascii.eqb_spec c "/") as [->|n].
    + exists (String "/" x). repeat split; auto. right.
      exact (prefix_append "/" x).
    + destruct IH as (rest & E & R & F). exists rest. simpl.
      rewrite <- E. repeat split; auto.
      apply Ascii.eqb_neq in n. now rewrite n.
Qed.

(** What the pattern captures: a name that is not empty, holds no slash,
    and stands in the text right after the marker, up to the next slash or
    the end. *)
Lemma match_deployment_sound (s m : string) :
  Js.match_deployment s = Some m ->
  m <> "" /\ slash_free m = true
  /\ exists a rest, s = a ++ "/deployments/" ++ m ++ rest
                    /\ (rest = "" \/ String.prefix "/" rest = true).
Proof.
  induction s as [|c s IH]; [discriminate|].
  cbn [Js.match_deployment].
  destruct (String.prefix "/deployments/" (String c s)) eqn:P; cbn [andb].
  - destruct (prefix_inv _ _ P) as [x Hx].
    assert (Sx : substring 13 (String.length (String c s)) (String c s) = x).
    { rewrite Hx.
      change (substring 13 (String.length ("/deployments/" ++ x)) ("/deployments/" ++ x))
        with (substring 0 (13 + String.length x) x).
      apply UrlBranch.substring_full. lia. }
    rewrite Sx.
    destruct (Js.nonempty (Js.take_segment x)) eqn:N.
    + intro H. injection H as <-.
      destruct (take_segment_split x) as (rest & E & R & F).
      split; [intro Z; rewrite Z in N; discriminate|]. split; [exact F|].
      exists "", rest. split; [|exact R]. rewrite Hx. simpl. now rewrite <- E.
    + intro H. destruct (IH H) as (M & F & a & rest & E & R).
      split; [exact M|]. split; [exact F|].
      exists (String c a), rest. split; [|exact R]. now rewrite E at 1.
  - intro H. destruct (IH H) as (M & F & a & rest & E & R).
    split; [exact M|]. split; [exact F|].
    exists (String c a), rest. split; [|exact R]. now rewrite E at 1.
Qed.

Lemma host_branch_starts (input : string) (d : Defaults) :
  Js.startsWith (baseUrl (parse_host_branch input d)) "https://" = true.
Proof.
  rewrite HostBranch.host_branch_base. cbv zeta.
  destruct (Js.startsWith (Js.strip_trailing_slash input) "https://") eqn:E.
  - destruct (prefix_inv _ _ E) as [x ->].
    rewrite append_assoc. exact (prefix_append "https://" _).
  - apply prefix_append.
Qed.

(** X3.  No result of [parseAzureEndpoint] has an empty base URL, whatever
    the input, the empty input included; the deployment and the version it
    returns are not empty as long as the defaults are not. *)
Theorem parsed_fields_never_empty (newURL : string -> option Url.t)
    (input : string) (d : Defaults) :
  let r := parseAzureEndpoint newURL input d in
  baseUrl r <> ""
  /\ (d_deployment d <> "" -> deployment r <> "")
  /\ (d_apiVersion d <> "" -> apiVersion r <> "").
Proof.
  intro r. unfold r, parseAzureEndpoint.
  destruct (newURL input) as [url|].
  - unfold parse_url_branch. cbn [baseUrl deployment apiVersion].
    split; [apply serialised_nonempty|]. split.
    + intro D. destruct (Js.match_deployment (Url.pathname url)) as [m|] eqn:E;
        [|exact D].
      exact (proj1 (match_deployment_sound _ _ E)).
    + intro V. destruct (Url.searchParams_get url "api-version") as [v|]; [|exact V].
      destruct v; [exact V | discriminate].
  - split; [|split; intro H; exact H].
    intro Z. pose proof (HostBranch.host_branch_ends input d) as E.
    rewrite Z in E. discriminate E.
Qed.

Lemma parsed_fields_never_empty_witness :
  let r := parseAzureEndpoint Url.parse "" hardcoded_defaults in
  baseUrl r <> "" /\ deployment r <> "" /\ apiVersion r <> "".
Proof.
  intro r.
  destruct (parsed_fields_never_empty Url.parse "" hardcoded_defaults) as (B & D & V).
  split; [exact B|]. split; [apply D | apply V]; discriminate.
Defined.

(** X4.  For an input that parses as a URL, the deployment returned is
    either the default or a name read from the pathname: not empty, without
    a slash, standing right after [/deployments/] and followed by a slash
    or the end of the pathname. *)
Theorem deployment_read_from_path (newURL : string -> option Url.t)
    (input : string) (d : Defaults) (url : Url.t) :
  newURL input = Some url ->
  let r := parseAzureEndpoint newURL input d in
  (Js.match_deployment (Url.pathname url) = None /\ deployment r = d_deployment d)
  \/ (deployment r <> "" /\ slash_free (deployment r) = true
      /\ exists a rest,
           Url.pathname url = a ++ "/deployments/" ++ deployment r ++ rest
           /\ (rest = "" \/ String.prefix "/" rest = true)).
Proof.
  intros H r. unfold r, parseAzureEndpoint. rewrite H.
  unfold parse_url_branch. cbn [deployment].
  destruct (Js.match_deployment (Url.pathname url)) as [m|] eqn:E.
  - right. exact (match_deployment_sound _ _ E).
  - left. now split.
Qed.

Lemma deployment_read_from_path_witness :
  deployment (parseAzureEndpoint Url.parse
                "https://h.example/openai/deployments//deployments/gpt/x"
                hardcoded_defaults) = "gpt".
Proof.
  destruct (deployment_read_from_path Url.parse
              "https://h.example/openai/deployments//deployments/gpt/x"
              hardcoded_defaults
              (Url.mk "https" (Some "h.example") false
                      "/openai/deployments//deployments/gpt/x" None None [])
              eq_refl) as [[E _]|_].
  - discriminate E.
  - reflexivity.
Defined.

(** *** Parsing what was parsed *)

Lemma indexOf_snoc (x : string) (b : list string) :
  ~ In x b -> Js.indexOf x (b ++ [x])%list = Some (List.length b).
Proof.
  induction b as [|h t IH]; intro N; simpl.
  - now rewrite String.eqb_refl.
  - destruct (String.eqb_spec h x) as [->|ne]; [elim N; now left|].
    rewrite IH; [reflexivity|]. intro I. apply N. now right.
Qed.

(** The parts of the kept path: no [openai] but the last. *)
Lemma base_path_parts (pathname : string) :
  exists b, Js.split_slash (base_path pathname) = (b ++ ["openai"])%list
            /\ ~ In "openai" b.
Proof.
  unfold base_path.
  destruct (Js.indexOf "openai" (Js.split_slash pathname)) as [i|] eqn:E.
  - destruct (firstn_indexOf _ _ _ E) as (b & Eb & N). exists b. split; [|exact N].
    rewrite <- Eb. apply split_join.
    + rewrite Eb. now destruct b.
    + apply Forall_forall. intros q Hq.
      apply (proj1 (Forall_forall _ _) (split_slash_free pathname)).
      rewrite <- (firstn_skipn (i + 1) (Js.split_slash pathname)).
      apply in_or_app. now left.
  - exists [""]. split; [reflexivity|]. intros [H|[]]. discriminate H.
Qed.

(** Cutting the kept path again changes nothing. *)
Lemma base_path_idempotent (pathname : string) :
  base_path (base_path pathname) = base_path pathname.
Proof.
  destruct (base_path_parts pathname) as (b & E & N).
  unfold base_path at 1. rewrite E, (indexOf_snoc _ _ N).
  rewrite firstn_all2 by (rewrite length_app; simpl; lia).
  rewrite <- E. apply join_split.
Qed.

(** X5.  Normalising is idempotent on URLs: an input that parses to the
    URL the [try] branch has built for another input (path cut after
    [openai], query cleared) gets the same base URL, whatever the
    defaults. *)
Theorem url_branch_idempotent (newURL : string -> option Url.t)
    (input input' : string) (d d' : Defaults) (url : Url.t) :
  newURL input = Some url ->
  Url.opaque url = false ->
  newURL input' =
    Some (Url.clear_search (Url.set_pathname url (base_path (Url.pathname url)))) ->
  baseUrl (parseAzureEndpoint newURL input' d')
  = baseUrl (parseAzureEndpoint newURL input d).
Proof.
  intros H O H'. unfold parseAzureEndpoint. rewrite H, H'.
  rewrite (UrlBranch.url_branch_base url d O).
  rewrite UrlBranch.url_branch_base
    by (unfold Url.clear_search, Url.set_pathname; rewrite O; reflexivity).
  unfold Url.clear_search, Url.set_pathname, origin, fragment_text. rewrite O.
  cbn [Url.pathname Url.scheme Url.authority Url.fragment Url.opaque andb].
  now rewrite base_path_idempotent.
Qed.

Lemma url_branch_idempotent_witness :
  baseUrl (parseAzureEndpoint Url.parse "https://h.example/openai" hardcoded_defaults)
  = baseUrl (parseAzureEndpoint Url.parse
               "https://h.example/openai/deployments/gpt/chat?api-version=1"
               (mkDefaults "other" "1999-01-01")).
Proof.
  apply (url_branch_idempotent Url.parse
           "https://h.example/openai/deployments/gpt/chat?api-version=1"
           "https://h.example/openai" (mkDefaults "other" "1999-01-01") hardcoded_defaults
           (Url.mk "https" (Some "h.example") false "/openai/deployments/gpt/chat"
                   (Some "api-version=1") None [("api-version", "1")]));
    reflexivity.
Defined.

(** X6.  Normalising is idempotent on rejected inputs: when the base URL
    built for an input that [new URL] rejects is rejected as well, parsing
    it again gives it back unchanged. *)
Theorem host_branch_idempotent (newURL : string -> option Url.t)
    (input : string) (d d' : Defaults) :
  newURL input = None ->
  newURL (baseUrl (parseAzureEndpoint newURL input d)) = None ->
  baseUrl (parseAzureEndpoint newURL (baseUrl (parseAzureEndpoint newURL input d)) d')
  = baseUrl (parseAzureEndpoint newURL input d).
Proof.
  intros H H'. unfold parseAzureEndpoint at 1. rewrite H'.
  unfold parseAzureEndpoint in *. rewrite H in *.
  set (out := baseUrl (parse_host_branch input d)).
  assert (E : Js.endsWith out "/openai" = true) by apply HostBranch.host_branch_ends.
  assert (S : Js.startsWith out "https://" = true) by apply host_branch_starts.
  assert (C : Js.strip_trailing_slash out = out).
  { apply strip_no_final_slash. destruct (endsWith_inv _ _ E) as [a ->].
    change (a ++ "/openai") with (a ++ "/" ++ "openai").
    rewrite <- append_assoc. apply openai_no_final_slash. }
  unfold parse_host_branch at 1. rewrite C, S. cbn [negb]. rewrite E. reflexivity.
Qed.

Lemma host_branch_idempotent_witness :
  baseUrl (parseAzureEndpoint Url.parse "https://foo bar/openai" hardcoded_defaults)
  = "https://foo bar/openai".
Proof.
  exact (host_branch_idempotent Url.parse "foo bar" hardcoded_defaults
           hardcoded_defaults eq_refl eq_refl).
Defined.

End ParserFacts.

(* ===================================================================== *)
(** * The configuration store: merging again, saving again *)
(* ===================================================================== *)

Module StoreFacts.

Import Spec Store.

Lemma assoc_set_set (k : string) (x y : JSON) (fs : list (string * JSON)) :
  Doc.assoc_set k y (Doc.assoc_set k x fs) = Doc.assoc_set k y fs.
Proof.
  induction fs as [|[k0 v] fs IH]; simpl.
  - now rewrite String.eqb_refl.
  - destruct (String.eqb k0 k) eqn:E; simpl; rewrite E; [reflexivity | now rewrite IH].
Qed.

(** Assignments to two names commute when the first name is there
    already. *)
Lemma assoc_set_comm (k k' : string) (x y : JSON) (fs : list (string * JSON)) :
  k <> k' -> Doc.assoc_get k fs <> None ->
  Doc.assoc_set k y (Doc.assoc_set k' x fs) = Doc.assoc_set k' x (Doc.assoc_set k y fs).
Proof.
  intros N. induction fs as [|[k0 v] fs IH]; simpl; intro G; [congruence|].
  destruct (String.eqb_spec k0 k) as [->|n1].
  - destruct (String.eqb_spec k k') as [|_]; [contradiction|]. simpl.
    rewrite String.eqb_refl.
    destruct (String.eqb_spec k k'); [contradiction | reflexivity].
  - destruct (String.eqb_spec k0 k') as [->|n2]; simpl.
    + destruct (String.eqb_spec k' k) as [e|_]; [now elim N|].
      now rewrite String.eqb_refl.
    + destruct (String.eqb_spec k0 k); [contradiction|].
      destruct (String.eqb_spec k0 k'); [contradiction|].
      now rewrite IH.
Qed.

Lemma set_set (v v1 : JSON) (k : string) (x y : JSON) :
  Doc.set_prop v k x = Some v1 -> Doc.set_prop v1 k y = Doc.set_prop v k y.
Proof.
  destruct v; simpl; intro H; try discriminate; injection H as <-; simpl;
    now rewrite assoc_set_set.
Qed.

Lemma set_comm (v vk v1 : JSON) (k k' : string) (y0 x y : JSON) :
  k <> k' ->
  Doc.set_prop v k y0 = Some vk -> Doc.set_prop vk k' x = Some v1 ->
  Doc.set_prop v1 k y =
  match Doc.set_prop vk k y with Some v2 => Doc.set_prop v2 k' x | None => None end.
Proof.
  intros N H1 H2.
  destruct v; simpl in H1; try discriminate; injection H1 as <-;
    simpl in H2; injection H2 as <-; simpl; f_equal; f_equal;
    apply assoc_set_comm; auto; rewrite assoc_get_set_same; discriminate.
Qed.

(** What an assignment returns can be assigned to. *)
Lemma set_defined (v v1 : JSON) (k k' : string) (x y : JSON) :
  Doc.set_prop v k x = Some v1 -> exists v2, Doc.set_prop v1 k' y = Some v2.
Proof.
  destruct v; simpl; intro H; try discriminate; injection H as <-; simpl; eauto.
Qed.

(** X7.  The last merge wins: merging new values into a document that a
    merge has produced gives the very document that merging them into the
    starting document gives.  Nothing of the earlier values stays behind,
    and the keys keep their places. *)
Theorem merge_last_wins (d b k : JSON) (dep : string) (v : JSON)
    (b' k' : JSON) (dep' : string) (v' : JSON) (d1 : JSON) :
  merge d b k dep v = Some d1 ->
  merge d1 b' k' dep' v' = merge d b' k' dep' v'.
Proof.
  intro H. destruct (merge_steps _ _ _ _ _ _ H) as (c1 & c2 & p & E1 & E2 & E3 & E4).
  cbv zeta in E1.
  assert (Pd : Doc.get_prop c2 "provider" =
               Doc.get_prop (if Doc.truthy d then d else JObj []) "provider").
  { rewrite (get_set_other _ _ _ _ _ E2) by discriminate.
    now rewrite (get_set_other _ _ _ _ _ E1) by discriminate. }
  assert (S1 : Doc.get_prop d1 "$schema" = Some (JStr "https://opencode.ai/config.json")).
  { rewrite (get_set_other _ _ _ _ _ E4) by discriminate.
    rewrite (get_set_other _ _ _ _ _ E2) by discriminate.
    exact (get_set_same _ _ _ _ E1). }
  destruct (set_defined _ _ _ "model" _ (JStr ("azure/" ++ dep')) E1) as [c2' F2].
  assert (Pd' : Doc.get_prop c2' "provider" =
                Doc.get_prop (if Doc.truthy d then d else JObj []) "provider").
  { rewrite (get_set_other _ _ _ _ _ F2) by discriminate.
    now rewrite (get_set_other _ _ _ _ _ E1) by discriminate. }
  (* the second merge, step by step *)
  assert (M2 : Doc.set_prop d1 "model" (JStr ("azure/" ++ dep'))
               = Doc.set_prop c2' "provider" p).
  { rewrite (set_comm c1 c2 d1 "model" "provider" _ p _ ltac:(discriminate) E2 E4).
    now rewrite (set_set _ _ _ _ (JStr ("azure/" ++ dep')) E2), F2. }
  destruct (set_defined _ _ _ "provider" _ p F2) as [d1' F4].
  unfold merge. rewrite (set_truthy _ _ _ _ E4).
  rewrite (set_same _ _ _ S1), M2, F4.
  rewrite (get_set_same _ _ _ _ F4). cbn [Doc.or_else].
  rewrite (set_truthy _ _ _ _ E3).
  rewrite (set_set _ _ _ _ (azure_entry b' k' dep' v') E3).
  rewrite E1, F2, Pd', <- Pd.
  destruct (Doc.set_prop (Doc.or_else (Doc.get_prop c2 "provider") (JObj [])) "azure"
              (azure_entry b' k' dep' v')) as [p'|]; [|reflexivity].
  exact (set_set _ _ _ _ p' F4).
Qed.

Lemma merge_last_wins_witness :
  let d := JObj [("agent", JStr "keep"); ("provider", JObj [("other", JNull)])] in
  option_map (fun d1 => merge d1 (JStr "https://b.example/openai") (JStr "k2") "two"
                              (JStr "2"))
    (merge d (JStr "https://a.example/openai") (JStr "k1") "one" (JStr "1"))
  = Some (merge d (JStr "https://b.example/openai") (JStr "k2") "two" (JStr "2")).
Proof.
  intro d.
  destruct (merge d (JStr "https://a.example/openai") (JStr "k1") "one" (JStr "1"))
    as [d1|] eqn:E; [|discriminate E].
  simpl. f_equal.
  exact (merge_last_wins d _ _ _ _ (JStr "https://b.example/openai") (JStr "k2") "two"
           (JStr "2") d1 E).
Defined.

(** *** The order of the keys *)

Lemma keys_assoc_set (k : string) (x : JSON) (fs : list (string * JSON)) :
  map fst (Doc.assoc_set k x fs)
  = (map fst fs ++ (if has_key k fs then [] else [k]))%list.
Proof.
  unfold has_key. induction fs as [|[k0 v] fs IH]; simpl; [reflexivity|].
  destruct (String.eqb k0 k); simpl.
  - now rewrite app_nil_r.
  - now rewrite IH.
Qed.

Lemma has_key_set_other (k k' : string) (x : JSON) (fs : list (string * JSON)) :
  k <> k' -> has_key k' (Doc.assoc_set k x fs) = has_key k' fs.
Proof. intro N. unfold has_key. now rewrite assoc_get_set_other. Qed.

(** X8.  Merging into an object keeps every key it has, in its place:
    the keys of the merged document are the keys of the starting one,
    followed by those of [$schema], [model] and [provider], in this order,
    that it did not have. *)
Theorem merge_keeps_key_order (fs : list (string * JSON)) (b k : JSON)
    (dep : string) (v d1 : JSON) :
  merge (JObj fs) b k dep v = Some d1 ->
  Doc.object_keys d1
  = (map fst fs
     ++ filter (fun key => negb (has_key key fs)) ["$schema"; "model"; "provider"])%list.
Proof.
  intro H. destruct (merge_steps _ _ _ _ _ _ H) as (c1 & c2 & p & E1 & E2 & E3 & E4).
  cbv zeta in E1. cbn [Doc.truthy Doc.set_prop] in E1. injection E1 as <-.
  cbn [Doc.set_prop] in E2. injection E2 as <-.
  cbn [Doc.set_prop] in E4. injection E4 as <-.
  cbn [Doc.object_keys]. rewrite !keys_assoc_set.
  rewrite !has_key_set_other by discriminate.
  rewrite <- !app_assoc. f_equal. cbn [filter].
  destruct (has_key "$schema" fs), (has_key "model" fs), (has_key "provider" fs);
    reflexivity.
Qed.

Lemma merge_keeps_key_order_witness :
  option_map Doc.object_keys
    (merge (JObj [("model", JStr "old"); ("agent", JNull)])
           (JStr "https://h.example/openai") (JStr "key") "gpt" (JStr "1"))
  = Some ["model"; "agent"; "$schema"; "provider"].
Proof.
  destruct (merge (JObj [("model", JStr "old"); ("agent", JNull)])
              (JStr "https://h.example/openai") (JStr "key") "gpt" (JStr "1"))
    as [d1|] eqn:E; [|discriminate E].
  simpl. f_equal. exact (merge_keeps_key_order _ _ _ _ _ _ E).
Defined.

End StoreFacts.

(* ===================================================================== *)
(** * The session: what every run does *)
(* ===================================================================== *)

Module RunFacts.

Import Spec SessionFacts.

Lemma bind_go {A B} (m : M A) (k : A -> M B) (w w' : World) (b : B) :
  bind m k w = Go b w' -> exists a w1, m w = Go a w1 /\ k a w1 = Go b w'.
Proof.
  unfold bind. destruct (m w) as [a w1|o w1]; [|discriminate]. eauto.
Qed.

Lemma count_events_app (P : Event -> bool) (a b : list Event) :
  count_events P (a ++ b) = count_events P a + count_events P b.
Proof. unfold count_events. now rewrite filter_app, length_app. Qed.

Lemma count_events_none (P Q : Event -> bool) (evs : list Event) :
  (forall e, Q e = true -> P e = false) -> forallb Q evs = true ->
  count_events P evs = 0.
Proof.
  intros I. unfold count_events. induction evs as [|e evs IH]; simpl; [reflexivity|].
  intro H. apply andb_true_iff in H. destruct H as [He Hs].
  rewrite (I e He). exact (IH Hs).
Qed.

#[local] Hint Resolve only_ret only_halt only_exit only_throw only_next_answer
  only_next_net : session.

Lemma short_ret {A} (a : A) : stops_short (ret a).
Proof. intros w o w' H. discriminate H. Qed.

Lemma short_stalled {A} : stops_short (fun w => @Halt A Stalled w).
Proof. intros w o w' H. injection H as <- _. discriminate. Qed.

Lemma short_exit {A} (code : nat) : stops_short (@exit A code).
Proof. intros w o w' H. injection H as <- _. discriminate. Qed.

Lemma short_throw {A} : stops_short (@throw A).
Proof. apply short_exit. Qed.

Lemma short_emit (e : Event) : stops_short (emit e).
Proof. intros w o w' H. discriminate H. Qed.

Lemma short_next_answer : stops_short next_answer.
Proof.
  intros w o w'. unfold next_answer. destruct (w_answers w); intro H;
    [injection H as <- _|]; discriminate.
Qed.

Lemma short_next_net : stops_short next_net.
Proof. intros w o w'. unfold next_net. destruct (w_net w); discriminate. Qed.

Lemma short_bind {A B} (m : M A) (k : A -> M B) :
  stops_short m -> (forall a, stops_short (k a)) -> stops_short (bind m k).
Proof.
  intros Hm Hk w o w'. unfold bind. destruct (m w) as [a w1|o1 w1] eqn:E.
  - apply Hk.
  - intro H. injection H as <- _. exact (Hm _ _ _ E).
Qed.

Lemma at_most_of_only (P Q : Event -> bool) {A} (m : M A) :
  (forall e, Q e = true -> P e = false) -> only Q m -> at_most P 0 m.
Proof.
  intros I H w. destruct (H w) as (_ & evs & T & F). exists evs. split; [exact T|].
  now rewrite (count_events_none _ _ _ I F).
Qed.

Lemma at_most_le (P : Event -> bool) (n n' : nat) {A} (m : M A) :
  n <= n' -> at_most P n m -> at_most P n' m.
Proof. intros L H w. destruct (H w) as (evs & T & C). exists evs. split; [exact T | lia]. Qed.

Lemma at_most_ret (P : Event -> bool) {A} (a : A) : at_most P 0 (ret a).
Proof. intro w. now exists []. Qed.

Lemma at_most_halt (P : Event -> bool) {A} (o : Outcome) :
  at_most P 0 (fun w => @Halt A o w).
Proof. intro w. now exists []. Qed.

Lemma at_most_emit (P : Event -> bool) (e : Event) : at_most P 1 (emit e).
Proof.
  intro w. exists [e]. split; [reflexivity|]. unfold count_events. simpl.
  destruct (P e); simpl; lia.
Qed.

Lemma at_most_bind (P : Event -> bool) (n k : nat) {A B} (m : M A) (f : A -> M B) :
  at_most P n m -> (forall a, at_most P k (f a)) -> at_most P (n + k) (bind m f).
Proof.
  intros Hm Hf w. unfold bind. specialize (Hm w). cbv zeta in Hm.
  destruct (m w) as [a w1|o w1].
  - specialize (Hf a w1). cbv zeta in *.
    destruct Hm as (e1 & T1 & C1). destruct Hf as (e2 & T2 & C2).
    exists (e2 ++ e1)%list. rewrite T2, T1, app_assoc, count_events_app.
    split; [reflexivity | lia].
  - destruct Hm as (e1 & T1 & C1). exists e1. split; [exact T1 | lia].
Qed.

Create HintDb short.
#[local] Hint Resolve short_ret short_stalled short_exit short_throw short_emit
  short_next_answer short_next_net : short.

Ltac short_step :=
  repeat first
    [ apply short_bind; [|intro]
    | solve [auto with short]
    | match goal with |- stops_short (match ?x with _ => _ end) => destruct x end ].

Section Run.

Variable newURL : string -> option Url.t.
Variable env : Env.

Lemma short_gather (existingAzure : option Settings) :
  stops_short (gather newURL env existingAzure).
Proof.
  unfold gather, gather_reuse, gather_fresh, askPassword, ask, question. short_step.
Qed.

Lemma short_verify (g : Gathered) : stops_short (verify newURL env g).
Proof. unfold verify, probe, ask, ask_value, question. short_step. Qed.

Lemma only_mcp_step (config : JSON) : only is_install (mcp_step env config).
Proof. unfold mcp_step. only_step. Qed.

Lemma only_binary_step : only is_install (binary_step env).
Proof. unfold binary_step. only_step. Qed.

Lemma mcp_step_answers (config c' : JSON) (w w' : World) :
  mcp_step env config w = Go c' w' -> w_answers w' = w_answers w.
Proof.
  unfold mcp_step, bind, emit, ret.
  destruct (pkgExists env); cbn [w_answers w_net w_file w_trace];
    destruct (npmOk env);
    repeat match goal with
           | |- context [match ?x with _ => _ end] => destruct x
           end;
    intro H; inversion H; reflexivity.
Qed.

Lemma binary_step_answers (u : unit) (w w' : World) :
  binary_step env w = Go u w' -> w_answers w' = w_answers w.
Proof.
  unfold binary_step, bind, emit, ret.
  destruct (binary env); cbn [w_answers w_net w_file w_trace];
    intro H; inversion H; reflexivity.
Qed.



(** The two ways a run can go: it ends before the configuration is merged,
    the file untouched; or it goes through gathering, probing, the merge,
    the marketplace step, the write and the download, and completes. *)
Lemma run_cases (w : World) :
  (fst (run newURL env w) <> Completed
   /\ w_file (snd (run newURL env w)) = w_file w
   /\ exists evs, w_trace (snd (run newURL env w)) = (evs ++ w_trace w)%list
                  /\ forallb is_early evs = true)
  \/ (exists g0 wg g wv config config' w1 evs_g evs_v evs_m evs_b,
        gather newURL env (prior w) (after_fetch w) = Go g0 wg
        /\ verify newURL env g0 wg = Go g wv
        /\ merge (loadExistingConfig (w_file w)) (g_baseUrl g) (g_apiKey g)
                 (g_deployment g) (g_apiVersion g) = Some config
        /\ mcp_step env config
             (mkWorld (w_answers wv) (w_net wv) (w_file wv)
                      (EMkdir ConfigDir :: w_trace wv)) = Go config' w1
        /\ fst (run newURL env w) = Completed
        /\ w_file (snd (run newURL env w)) = persist config'
        /\ w_answers (snd (run newURL env w)) = w_answers wv
        /\ w_trace (snd (run newURL env w))
           = (evs_b ++ EWriteFile ConfigPath :: evs_m ++ EMkdir ConfigDir
              :: evs_v ++ evs_g ++ EFetchDefaults :: w_trace w)%list
        /\ forallb is_prompt evs_g = true
        /\ forallb prompt_or_probe evs_v = true
        /\ forallb is_install evs_m = true
        /\ forallb is_install evs_b = true).
Proof.
  assert (Ep : forall l, forallb is_prompt l = true -> forallb is_early l = true).
  { intros l H. rewrite forallb_forall in *. intros e I. unfold is_early.
    now rewrite (H e I). }
  assert (Ev : forall l, forallb prompt_or_probe l = true -> forallb is_early l = true).
  { intros l H. rewrite forallb_forall in *. intros e I. unfold is_early.
    specialize (H e I). unfold prompt_or_probe in H. now rewrite H. }
  destruct (run newURL env w) as [o w'] eqn:R. cbn [fst snd].
  rewrite run_unfold in R. unfold bind at 1 in R.
  pose proof (only_gather newURL env (prior w) (after_fetch w)) as Hg. cbv zeta in Hg.
  destruct (gather newURL env (prior w) (after_fetch w)) as [g0 wg|o1 wg] eqn:Eg.
  2:{ injection R as <- <-. left. destruct Hg as (F & evs & T & P).
      split; [exact (short_gather _ _ _ _ Eg)|]. split; [exact F|].
      exists (evs ++ [EFetchDefaults])%list. rewrite T, <- app_assoc. split; [reflexivity|].
      rewrite forallb_app, (Ep _ P). reflexivity. }
  destruct Hg as (Fg & evs_g & Tg & Pg). cbn [after_fetch w_file w_trace] in Fg, Tg.
  unfold bind at 1 in R.
  pose proof (only_verify newURL env g0 wg) as Hv. cbv zeta in Hv.
  destruct (verify newURL env g0 wg) as [g wv|o1 wv] eqn:Eve.
  2:{ injection R as <- <-. left. destruct Hv as (F & evs & T & P).
      split; [exact (short_verify _ _ _ _ Eve)|]. split; [congruence|].
      exists (evs ++ evs_g ++ [EFetchDefaults])%list.
      rewrite T, Tg, <- !app_assoc. split; [reflexivity|].
      rewrite !forallb_app, (Ev _ P), (Ep _ Pg). reflexivity. }
  destruct Hv as (Fv & evs_v & Tv & Pv).
  unfold bind at 1 in R. unfold emit at 1 in R.
  destruct (merge _ _ _ _ _) as [config|] eqn:Em.
  - right. unfold bind at 1 in R.
    pose proof (only_mcp_step config
                  (mkWorld (w_answers wv) (w_net wv) (w_file wv)
                           (EMkdir ConfigDir :: w_trace wv))) as Hm.
    cbv zeta in Hm.
    destruct (mcp_step env config _) as [config' w1|o1 w1] eqn:E1.
    2:{ destruct (mcp_step_returns env config
                    (mkWorld (w_answers wv) (w_net wv) (w_file wv)
                             (EMkdir ConfigDir :: w_trace wv))) as (c & w2 & E).
        congruence. }
    destruct Hm as (Fm & evs_m & Tm & Pm). cbn [w_file w_trace] in Fm, Tm.
    unfold bind at 1 in R. unfold write_config at 1 in R.
    pose proof (only_binary_step
                  (mkWorld (w_answers w1) (w_net w1) (persist config')
                           (EWriteFile ConfigPath :: w_trace w1))) as Hb.
    cbv zeta in Hb.
    destruct (binary_step env _) as [u w2|o1 w2] eqn:E2.
    2:{ destruct (binary_step_returns env
                    (mkWorld (w_answers w1) (w_net w1) (persist config')
                             (EWriteFile ConfigPath :: w_trace w1))) as (w3 & E).
        congruence. }
    destruct Hb as (Fb & evs_b & Tb & Pb). cbn [w_file w_trace] in Fb, Tb.
    injection R as <- <-.
    assert (Aw : w_answers w2 = w_answers wv).
    { rewrite (binary_step_answers _ _ _ E2). cbn [w_answers].
      now rewrite (mcp_step_answers _ _ _ _ E1). }
    exists g0, wg, g, wv, config, config', w1, evs_g, evs_v, evs_m, evs_b.
    repeat split; auto.
    rewrite Tb, Tm, Tv, Tg. reflexivity.
  - injection R as <- <-. left. split; [discriminate|]. split; [cbn; congruence|].
    exists (EMkdir ConfigDir :: evs_v ++ evs_g ++ [EFetchDefaults])%list.
    cbn [w_trace]. rewrite Tv, Tg. cbn [app]. rewrite <- !app_assoc.
    split; [reflexivity|].
    cbn [forallb]. rewrite !forallb_app, (Ev _ Pv), (Ep _ Pg). reflexivity.
Qed.

(** X10.  The configuration file is written exactly once by a run that
    completes and never by a run that does not: among the effects of a
    completed run there is one write of the configuration file, and the
    file then holds a saved document; a run that ends any other way has no
    such write and leaves the file as it found it. *)
Theorem config_written_iff_completed (w : World) :
  exists evs,
    w_trace (snd (run newURL env w)) = (evs ++ w_trace w)%list
    /\ ((fst (run newURL env w) = Completed
         /\ count_events is_config_write evs = 1
         /\ exists config, w_file (snd (run newURL env w)) = persist config)
        \/ (fst (run newURL env w) <> Completed
            /\ count_events is_config_write evs = 0
            /\ w_file (snd (run newURL env w)) = w_file w)).
Proof.
  assert (Ce : forall e, is_early e = true -> is_config_write e = false)
    by (intros e; destruct e; try destruct p; cbv; congruence).
  assert (Cp : forall e, is_prompt e = true -> is_config_write e = false)
    by (intros e; destruct e; try destruct p; cbv; congruence).
  assert (Cv : forall e, prompt_or_probe e = true -> is_config_write e = false)
    by (intros e; destruct e; try destruct p; cbv; congruence).
  assert (Ci : forall e, is_install e = true -> is_config_write e = false)
    by (intros e; destruct e; try destruct p; cbv; congruence).
  destruct (run_cases w) as [(N & F & evs & T & P)|H].
  - exists evs. split; [exact T|]. right. split; [exact N|]. split; [|exact F].
    exact (count_events_none _ _ _ Ce P).
  - destruct H as (g0 & wg & g & wv & config & config' & w1 & eg & ev & em & eb
                   & _ & _ & _ & _ & C & F & _ & T & Pg & Pv & Pm & Pb).
    exists (eb ++ EWriteFile ConfigPath :: em ++ EMkdir ConfigDir
            :: ev ++ eg ++ [EFetchDefaults])%list.
    split.
    + rewrite T. rewrite <- !app_assoc. cbn [app]. rewrite <- !app_assoc.
      cbn [app]. rewrite <- !app_assoc. reflexivity.
    + left. split; [exact C|]. split; [|now exists config'].
      rewrite count_events_app, (count_events_none _ _ _ Ci Pb).
      change (EWriteFile ConfigPath :: em ++ EMkdir ConfigDir :: ev ++ eg ++ [EFetchDefaults])%list
        with ([EWriteFile ConfigPath] ++ em ++ [EMkdir ConfigDir] ++ ev ++ eg
              ++ [EFetchDefaults])%list.
      rewrite !count_events_app, (count_events_none _ _ _ Ci Pm),
        (count_events_none _ _ _ Cv Pv), (count_events_none _ _ _ Cp Pg).
      reflexivity.
Qed.

(** *** How often the network is probed *)

Lemma prompts_no_probe (e : Event) : is_prompt e = true -> is_probe e = false.
Proof. destruct e; cbv; congruence. Qed.

Lemma installs_no_probe (e : Event) : is_install e = true -> is_probe e = false.
Proof. destruct e; try destruct p; cbv; congruence. Qed.

Lemma probe_once (b k : JSON) (dep : string) (v : JSON) :
  at_most is_probe 1 (probe newURL b k dep v).
Proof.
  unfold probe. destruct (probe_sent _ _ _ _ _).
  - apply (at_most_bind is_probe 1 0); [apply at_most_emit|intros _].
    apply (at_most_bind is_probe 0 0);
      [apply (at_most_of_only _ _ _ prompts_no_probe), only_next_net|intro n].
    destruct (testConnection _ _ _ _ _ _); [apply at_most_ret | apply at_most_halt].
  - apply (at_most_le is_probe 0); [lia | apply at_most_halt].
Qed.

Lemma verify_probes (g : Gathered) :
  at_most is_probe (if nonInteractive env then 1 else 2) (verify newURL env g).
Proof.
  assert (Q : forall A (m : M A), only is_prompt m -> at_most is_probe 0 m)
    by (intros A m; apply at_most_of_only, prompts_no_probe).
  unfold verify. destruct (nonInteractive env).
  - apply (at_most_bind is_probe 1 0); [apply probe_once|intro r].
    destruct (ok r); apply at_most_ret.
  - apply (at_most_bind is_probe 1 1); [apply probe_once|intro r].
    destruct (ok r); [apply (at_most_le is_probe 0); [lia | apply at_most_ret]|].
    apply (at_most_bind is_probe 0 1); [apply Q, only_ask|intro dep].
    apply (at_most_bind is_probe 0 1); [apply Q, only_ask_value|intro ver].
    apply (at_most_bind is_probe 1 0); [apply probe_once|intro r'].
    destruct (ok r'); [apply at_most_ret|].
    apply (at_most_bind is_probe 0 0); [apply Q, only_ask|intro c].
    destruct (negb _); [apply at_most_halt | apply at_most_ret].
Qed.

Lemma main_probes :
  at_most is_probe (if nonInteractive env then 1 else 2) (main newURL env).
Proof.
  assert (Q : forall A (m : M A), only is_prompt m -> at_most is_probe 0 m)
    by (intros A m; apply at_most_of_only, prompts_no_probe).
  assert (I : forall A (m : M A), only is_install m -> at_most is_probe 0 m)
    by (intros A m; apply at_most_of_only, installs_no_probe).
  apply (at_most_le is_probe (0 + (0 + (0 + ((if nonInteractive env then 1 else 2)
                                              + (0 + 0)))))); [lia|].
  unfold main.
  apply at_most_bind; [intro w; now exists []|intro f]. cbv zeta.
  apply at_most_bind;
    [intro w; exists [EFetchDefaults]; split; [reflexivity | cbv; lia]|intros _].
  apply at_most_bind; [apply Q, only_gather|intro g0].
  apply at_most_bind; [apply verify_probes|intro g].
  apply at_most_bind;
    [intro w; exists [EMkdir ConfigDir]; split; [reflexivity | cbv; lia]|intros _].
  destruct (merge _ _ _ _ _) as [config|]; [|apply at_most_halt].
  apply (at_most_bind is_probe 0 0); [apply I, only_mcp_step|intro c'].
  apply (at_most_bind is_probe 0 0);
    [intro w; exists [EWriteFile ConfigPath]; split; [reflexivity | cbv; lia]|intros _].
  apply I, only_binary_step.
Qed.

(** X11.  No run probes the endpoint more than twice, and no unattended
    run more than once. *)
Theorem probes_at_most_twice (w : World) :
  exists evs,
    w_trace (snd (run newURL env w)) = (evs ++ w_trace w)%list
    /\ count_events is_probe evs <= 2
    /\ (nonInteractive env = true -> count_events is_probe evs <= 1).
Proof.
  destruct (main_probes w) as (evs & T & C). cbv zeta in T.
  exists evs. split.
  - unfold run. destruct (main newURL env w); exact T.
  - destruct (nonInteractive env); split; try lia; discriminate.
Qed.

End Run.

Lemma probes_at_most_twice_witness :
  let env := mkEnv true true hardcoded_defaults "/m" false true Installed in
  exists evs,
    w_trace (snd (run Url.parse env (mkWorld [] [] NoFile []))) = evs
    /\ count_events is_probe evs <= 1.
Proof.
  intro env.
  destruct (probes_at_most_twice Url.parse env (mkWorld [] [] NoFile []))
    as (evs & T & _ & C).
  exists evs. split.
  - rewrite T. apply app_nil_r.
  - exact (C eq_refl).
Defined.

(** *** The values a run works with *)

Lemma nonempty_true (x : string) : x <> "" -> Js.nonempty x = true.
Proof. destruct x; [congruence | reflexivity]. Qed.

Lemma nonempty_neq (x : string) : Js.nonempty x = true -> x <> "".
Proof. destruct x; [discriminate | discriminate]. Qed.

(** What [parseAzureEndpoint] returns is not empty, the defaults
    allowing. *)
Lemma parse_nonempty (newURL : string -> option Url.t) (input : string) (d : Defaults) :
  baseUrl (parseAzureEndpoint newURL input d) <> ""
  /\ (d_deployment d <> "" -> deployment (parseAzureEndpoint newURL input d) <> "")
  /\ (d_apiVersion d <> "" -> apiVersion (parseAzureEndpoint newURL input d) <> "").
Proof.
  unfold parseAzureEndpoint. destruct (newURL input) as [url|].
  - unfold parse_url_branch. cbn [baseUrl deployment apiVersion].
    split; [apply ParserFacts.serialised_nonempty|]. split.
    + intro D. destruct (Js.match_deployment (Url.pathname url)) as [m|] eqn:E;
        [|exact D].
      exact (proj1 (ParserFacts.match_deployment_sound _ _ E)).
    + intro V. destruct (Url.searchParams_get url "api-version") as [v|]; [|exact V].
      destruct v; [exact V | discriminate].
  - split; [|split; intro H; exact H].
    intro Z. pose proof (HostBranch.host_branch_ends input d) as E.
    rewrite Z in E. discriminate E.
Qed.

(** What the prior settings hold. *)
Lemma prior_values (config : JSON) (ex : Settings) :
  getExistingAzureSettings config = Some ex ->
  s_deployment ex <> "" /\ Doc.truthy (s_apiVersion ex) = true.
Proof.
  unfold getExistingAzureSettings.
  destruct (negb _); [discriminate|].
  destruct (Doc.opt_prop (Doc.opt_prop (Some config) "provider") "azure") as [az|];
    [|discriminate].
  destruct (Doc.opt_prop (Some az) "options") as [opts|]; [|discriminate].
  intro H. injection H as <-. simpl. split.
  - destruct (Doc.object_keys _) as [|k ks]; [discriminate|].
    destruct k; [discriminate|]. simpl. discriminate.
  - now apply DefaultsFacts.or_else_truthy.
Qed.

Section Values.

Variable newURL : string -> option Url.t.
Variable env : Env.

Lemma ask_go (q d a : string) (w w' : World) :
  ask q d w = Go a w' -> d <> "" -> a <> "".
Proof.
  unfold ask. intros H D. destruct (bind_go _ _ _ _ _ H) as (ans & w1 & _ & R).
  unfold ret in R. injection R as <- _.
  destruct (Js.nonempty ans) eqn:N; [now apply nonempty_neq | exact D].
Qed.

Lemma ask_value_go (q : string) (d a : JSON) (w w' : World) :
  ask_value q d w = Go a w' -> Doc.truthy d = true -> Doc.truthy a = true.
Proof.
  unfold ask_value. intros H D. destruct (bind_go _ _ _ _ _ H) as (ans & w1 & _ & R).
  unfold ret in R. injection R as <- _.
  destruct (Js.nonempty ans) eqn:N; [exact N | exact D].
Qed.

Lemma askPassword_go (q : string) (ev a : JSON) (w w' : World) :
  askPassword env q ev w = Go a w' -> Doc.truthy a = true \/ a = ev.
Proof.
  unfold askPassword. intro H. destruct (bind_go _ _ _ _ _ H) as (u & w1 & _ & R).
  destruct (bind_go _ _ _ _ _ R) as (ans & w2 & _ & R2).
  destruct ans as [pw|].
  - unfold ret in R2. injection R2 as <- _.
    destruct (Js.nonempty pw) eqn:N; [now left | now right].
  - destruct (isTTY env); discriminate R2.
Qed.

Lemma gather_reuse_values (ex : Settings) (g : Gathered) (w w' : World) :
  Doc.truthy (s_baseUrl ex) = true -> s_deployment ex <> "" ->
  Doc.truthy (s_apiVersion ex) = true ->
  gather_reuse newURL env ex w = Go g w' -> gathered_ok env g.
Proof.
  intros Tb Td Tv H. unfold gather_reuse in H.
  destruct (bind_go _ _ _ _ _ H) as (ans & w1 & _ & H1). cbv zeta in H1.
  destruct (bind_go _ _ _ _ _ H1) as (key & w2 & _ & H2).
  destruct (Doc.truthy key) eqn:Tk; [|discriminate H2]. cbn [negb] in H2.
  destruct (bind_go _ _ _ _ _ H2) as (dep & w3 & Hd & H3).
  unfold ret in H3. injection H3 as <- _.
  destruct (parse_nonempty newURL ans (defaults env)) as (Pb & Pd & Pv).
  unfold gathered_ok. cbn [g_baseUrl g_apiKey g_deployment g_apiVersion].
  destruct (kept_endpoint ans (s_baseUrl ex));
    cbn [g_baseUrl g_apiKey g_deployment g_apiVersion] in *.
  - repeat split; auto.
    destruct (_ && _) in Hd.
    + unfold ret in Hd. injection Hd as <- _. auto.
    + intros _. exact (ask_go _ _ _ _ _ Hd Td).
  - repeat split; auto.
    + now apply nonempty_true.
    + intro D. destruct (_ && _) in Hd.
      * unfold ret in Hd. injection Hd as <- _. auto.
      * exact (ask_go _ _ _ _ _ Hd (Pd D)).
    + intro V. apply nonempty_true. auto.
Qed.

Lemma gather_fresh_values (g : Gathered) (w w' : World) :
  gather_fresh newURL env w = Go g w' -> gathered_ok env g.
Proof.
  intro H. unfold gather_fresh in H.
  destruct (bind_go _ _ _ _ _ H) as (raw & w1 & _ & H1).
  destruct (Js.nonempty raw); [|discriminate H1]. cbn [negb] in H1. cbv zeta in H1.
  destruct (bind_go _ _ _ _ _ H1) as (key & w2 & _ & H2).
  destruct (Doc.truthy key) eqn:Tk; [|discriminate H2]. cbn [negb] in H2.
  destruct (bind_go _ _ _ _ _ H2) as (dep & w3 & Hd & H3).
  unfold ret in H3. injection H3 as <- _.
  destruct (parse_nonempty newURL raw (defaults env)) as (Pb & Pd & Pv).
  unfold gathered_ok. cbn [g_baseUrl g_apiKey g_deployment g_apiVersion].
  repeat split; auto.
  - now apply nonempty_true.
  - intro D. exact (ask_go _ _ _ _ _ Hd (Pd D)).
  - intro V. apply nonempty_true. auto.
Qed.

Lemma gather_values (w0 w w' : World) (g : Gathered) :
  gather newURL env (prior w0) w = Go g w' -> gathered_ok env g.
Proof.
  unfold gather. intro H.
  destruct (prior w0) as [ex|] eqn:P.
  - destruct (prior_values _ _ P) as (Td & Tv).
    cbn [prior_baseUrl prior_apiKey option_map Doc.truthy_opt] in H.
    destruct (nonInteractive env); cbn [andb negb] in H.
    + destruct (Doc.truthy (s_baseUrl ex)) eqn:Tb; cbn [andb negb] in H;
        [|discriminate H].
      destruct (Doc.truthy (s_apiKey ex)) eqn:Tk.
      * unfold ret in H. injection H as <- _. unfold gathered_ok. simpl. auto.
      * exact (gather_reuse_values _ _ _ _ Tb Td Tv H).
    + destruct (Doc.truthy (s_baseUrl ex)) eqn:Tb.
      * exact (gather_reuse_values _ _ _ _ Tb Td Tv H).
      * exact (gather_fresh_values _ _ _ H).
  - cbn [prior_baseUrl prior_apiKey option_map Doc.truthy_opt] in H.
    destruct (nonInteractive env); cbn [andb negb] in H; [discriminate H|].
    exact (gather_fresh_values _ _ _ H).
Qed.

Lemma verify_values (g g' : Gathered) (w w' : World) :
  verify newURL env g w = Go g' w' ->
  g_baseUrl g' = g_baseUrl g /\ g_apiKey g' = g_apiKey g
  /\ (g_deployment g <> "" -> g_deployment g' <> "")
  /\ (Doc.truthy (g_apiVersion g) = true -> Doc.truthy (g_apiVersion g') = true).
Proof.
  unfold verify. intro H.
  destruct (bind_go _ _ _ _ _ H) as (r & w1 & _ & H1).
  destruct (ok r); [unfold ret in H1; injection H1 as <- _; auto|].
  destruct (nonInteractive env); [unfold ret in H1; injection H1 as <- _; auto|].
  destruct (bind_go _ _ _ _ _ H1) as (dep & w2 & Hd & H2).
  destruct (bind_go _ _ _ _ _ H2) as (ver & w3 & Hv & H3). cbv zeta in H3.
  destruct (bind_go _ _ _ _ _ H3) as (r' & w4 & _ & H4).
  cbn [g_baseUrl g_apiKey g_deployment g_apiVersion] in H4.
  assert (R : g' = mkGathered (g_baseUrl g) dep ver (g_apiKey g)).
  { destruct (ok r'); [unfold ret in H4; now injection H4 as <- _|].
    destruct (bind_go _ _ _ _ _ H4) as (c & w5 & _ & H5).
    destruct (negb _); [discriminate H5|]. unfold ret in H5. now injection H5 as <- _. }
  rewrite R. cbn [g_baseUrl g_apiKey g_deployment g_apiVersion].
  repeat split.
  - intro D. exact (ask_go _ _ _ _ _ Hd D).
  - intro V. exact (ask_value_go _ _ _ _ _ Hv V).
Qed.

(** X13.  Whatever is stored and whatever is typed, the values with which
    the gathering stage ends hold a truthy base URL and a truthy key; with
    defaults that are not empty they also hold a deployment that is not
    empty and a truthy version. *)
Theorem gathered_values_complete (w0 w w' : World) (g : Gathered) :
  gather newURL env (prior w0) w = Go g w' ->
  Doc.truthy (g_baseUrl g) = true /\ Doc.truthy (g_apiKey g) = true
  /\ (d_deployment (defaults env) <> "" -> d_apiVersion (defaults env) <> "" ->
      complete g).
Proof.
  intro H. destruct (gather_values _ _ _ _ H) as (B & K & D & V).
  split; [exact B|]. split; [exact K|]. intros Hd Hv. unfold complete. auto.
Qed.

(** X14.  The probing stage holds the endpoint and the credential fixed:
    the values it ends with have the base URL and the key it was given,
    however the probes went and whatever was answered, and a deployment
    and a version that are not empty if those it was given were not. *)
Theorem verify_holds_endpoint_and_key (g g' : Gathered) (w w' : World) :
  verify newURL env g w = Go g' w' ->
  g_baseUrl g' = g_baseUrl g /\ g_apiKey g' = g_apiKey g
  /\ (complete g -> complete g').
Proof.
  intro H. destruct (verify_values _ _ _ _ H) as (B & K & D & V).
  split; [exact B|]. split; [exact K|].
  unfold complete. rewrite B, K. intros (Tb & Tk & Td & Tv). auto.
Qed.

End Values.

Lemma gathered_values_complete_witness :
  let env := mkEnv false true hardcoded_defaults "/m" false true NoAsset in
  complete (mkGathered (JStr "https://h.example/openai") "d1" (JStr "2025-01-01-preview")
                       (JStr "key")).
Proof.
  intro env.
  refine (proj2 (proj2 (gathered_values_complete Url.parse env
    (mkWorld [] [] NoFile [])
    (mkWorld [Typed "h.example"; Typed "key"; Typed "d1"] [] NoFile [])
    (mkWorld [] [] NoFile
       [EQuestion "Deployment name" (JStr "model-router"); ESecret "API Key" None;
        EQuestion "Endpoint" (JStr "")])
    _ eq_refl)) _ _); discriminate.
Defined.

Lemma verify_holds_endpoint_and_key_witness :
  g_baseUrl (mkGathered (JStr "https://h.example/openai") "d2" (JStr "v1") (JStr "key"))
  = g_baseUrl (mkGathered (JStr "https://h.example/openai") "d1" (JStr "v1") (JStr "key")).
Proof.
  refine (proj1 (verify_holds_endpoint_and_key Url.parse
    (mkEnv false true hardcoded_defaults "/m" false true NoAsset)
    (mkGathered (JStr "https://h.example/openai") "d1" (JStr "v1") (JStr "key"))
    (mkGathered (JStr "https://h.example/openai") "d2" (JStr "v1") (JStr "key"))
    (mkWorld [Typed "d2"; Typed ""] [Response 404 ""; Response 200 ""] NoFile [])
    (mkWorld [] [] NoFile
       [EProbe "https://h.example/openai/deployments/d2/chat/completions?api-version=v1"
               (JStr "key");
        EQuestion "API Version" (JStr "v1"); EQuestion "Deployment name" (JStr "d1");
        EProbe "https://h.example/openai/deployments/d1/chat/completions?api-version=v1"
               (JStr "key")])
    _)).
  vm_compute. reflexivity.
Defined.

(** *** Runs that end early, runs that commit *)





Section Ends.

Variable newURL : string -> option Url.t.
Variable env : Env.


(** X15.  A first run with prompts allowed needs its two inputs: when
    nothing is typed for the endpoint, the run ends with exit code 1 after
    that one question; when an endpoint is typed but no key, it ends with
    exit code 1 after the key prompt.  Either way nothing has been probed
    and the file is as it was. *)
Theorem first_run_requires_input (w : World) (rest : list Answer) :
  nonInteractive env = false ->
  Doc.truthy_opt (prior_baseUrl (prior w)) = false ->
  (w_answers w = Typed "" :: rest ->
   run newURL env w =
     (Exited 1,
      mkWorld rest (w_net w) (w_file w)
        (EQuestion "Endpoint" (JStr "") :: EFetchDefaults :: w_trace w)))
  /\ (forall endpoint, endpoint <> "" ->
       w_answers w = Typed endpoint :: Typed "" :: rest ->
       run newURL env w =
         (Exited 1,
          mkWorld rest (w_net w) (w_file w)
            (ESecret "API Key" None :: EQuestion "Endpoint" (JStr "")
             :: EFetchDefaults :: w_trace w))).
Proof.
  intros N B.
  assert (G : forall w0, gather newURL env (prior w) w0 = gather_fresh newURL env w0).
  { intro w0. unfold gather. rewrite N, B. reflexivity. }
  split.
  - intro A. rewrite run_unfold. unfold bind at 1. rewrite G.
    unfold gather_fresh, ask, question, bind, emit, next_answer, ret, exit, after_fetch.
    cbn [w_answers w_net w_file w_trace]. rewrite A. reflexivity.
  - intros endpoint E A. rewrite run_unfold. unfold bind at 1. rewrite G.
    unfold gather_fresh, askPassword, ask, question, bind, emit, next_answer, ret, exit,
      after_fetch.
    cbn [w_answers w_net w_file w_trace]. rewrite A.
    destruct endpoint; [congruence|]. reflexivity.
Qed.

(** X17.  On a terminal, the interrupt key at the key prompt of a first
    run ends the process at once, with exit code 0: nothing is probed and
    the file is as it was. *)
Theorem interrupt_at_key_prompt (w : World) (endpoint : string) (rest : list Answer) :
  nonInteractive env = false ->
  isTTY env = true ->
  Doc.truthy_opt (prior_baseUrl (prior w)) = false ->
  endpoint <> "" ->
  w_answers w = Typed endpoint :: CtrlC :: rest ->
  run newURL env w =
    (Exited 0,
     mkWorld rest (w_net w) (w_file w)
       (ESecret "API Key" None :: EQuestion "Endpoint" (JStr "")
        :: EFetchDefaults :: w_trace w)).
Proof.
  intros N T B E A. rewrite run_unfold. unfold bind at 1.
  unfold gather. rewrite N, B. cbn [andb negb].
  unfold gather_fresh, askPassword, ask, question, bind, emit, next_answer, ret, exit,
    after_fetch.
  cbn [w_answers w_net w_file w_trace]. rewrite A, T.
  destruct endpoint; [congruence|]. reflexivity.
Qed.


End Ends.


Lemma first_run_requires_input_witness :
  run Url.parse (mkEnv false true hardcoded_defaults "/m" true false NoAsset)
      (mkWorld [Typed "h.example"; Typed ""; Typed "more"] [] NoFile [])
  = (Exited 1,
     mkWorld [Typed "more"] [] NoFile
       [ESecret "API Key" None; EQuestion "Endpoint" (JStr ""); EFetchDefaults]).
Proof.
  refine (proj2 (first_run_requires_input Url.parse
    (mkEnv false true hardcoded_defaults "/m" true false NoAsset)
    (mkWorld [Typed "h.example"; Typed ""; Typed "more"] [] NoFile [])
    [Typed "more"] eq_refl eq_refl) "h.example" _ eq_refl).
  discriminate.
Defined.

Lemma interrupt_at_key_prompt_witness :
  run Url.parse (mkEnv false true hardcoded_defaults "/m" true false NoAsset)
      (mkWorld [Typed "h.example"; CtrlC] [] (Garbage "zz") [])
  = (Exited 0,
     mkWorld [] [] (Garbage "zz")
       [ESecret "API Key" None; EQuestion "Endpoint" (JStr ""); EFetchDefaults]).
Proof.
  refine (interrupt_at_key_prompt Url.parse
    (mkEnv false true hardcoded_defaults "/m" true false NoAsset)
    (mkWorld [Typed "h.example"; CtrlC] [] (Garbage "zz") [])
    "h.example" [] eq_refl eq_refl eq_refl _ eq_refl).
  discriminate.
Defined.


(** *** The file is read once *)

Lemma blind_ret {A} (a : A) : file_blind (ret a).
Proof. intros f w. reflexivity. Qed.

Lemma blind_halt {A} (o : Outcome) : file_blind (fun w => @Halt A o w).
Proof. intros f w. reflexivity. Qed.

Lemma blind_exit {A} (code : nat) : file_blind (@exit A code).
Proof. intros f w. reflexivity. Qed.

Lemma blind_throw {A} : file_blind (@throw A).
Proof. intros f w. reflexivity. Qed.

Lemma blind_emit (e : Event) : file_blind (emit e).
Proof. intros f w. reflexivity. Qed.

Lemma blind_next_answer : file_blind next_answer.
Proof. intros f w. unfold next_answer. simpl. destruct (w_answers w); reflexivity. Qed.

Lemma blind_next_net : file_blind next_net.
Proof. intros f w. unfold next_net. simpl. destruct (w_net w); reflexivity. Qed.

Lemma blind_bind {A B} (m : M A) (k : A -> M B) :
  file_blind m -> (forall a, file_blind (k a)) -> file_blind (bind m k).
Proof.
  intros Hm Hk f w. unfold bind. rewrite Hm.
  destruct (m w) as [a w1|o w1]; simpl; [apply Hk | reflexivity].
Qed.

Lemma bind_unfold {A B} (m : M A) (k : A -> M B) (w : World) :
  bind m k w = match m w with Go a w1 => k a w1 | Halt o w1 => Halt o w1 end.
Proof. reflexivity. Qed.

Lemma bind_blind {A B} (m : M A) (k : A -> M B) (f : File) (w : World) :
  file_blind m ->
  bind m k (with_file f w)
  = match m w with
    | Go a w1 => k a (with_file f w1)
    | Halt o w1 => Halt o (with_file f w1)
    end.
Proof. intro H. unfold bind. rewrite H. destruct (m w); reflexivity. Qed.

Create HintDb blind.
#[local] Hint Resolve blind_ret blind_halt blind_exit blind_throw blind_emit
  blind_next_answer blind_next_net : blind.

Ltac blind_step :=
  repeat first
    [ apply blind_bind; [|intro]
    | solve [auto with blind]
    | match goal with |- file_blind (match ?x with _ => _ end) => destruct x end ].

Section FileOnce.

Variable newURL : string -> option Url.t.
Variable env : Env.

Lemma blind_gather (existingAzure : option Settings) :
  file_blind (gather newURL env existingAzure).
Proof.
  unfold gather, gather_reuse, gather_fresh, askPassword, ask, question. blind_step.
Qed.

Lemma blind_verify (g : Gathered) : file_blind (verify newURL env g).
Proof. unfold verify, probe, ask, ask_value, question. blind_step. Qed.

Lemma blind_mcp_step (config : JSON) : file_blind (mcp_step env config).
Proof. unfold mcp_step. blind_step. Qed.

Lemma blind_binary_step : file_blind (binary_step env).
Proof. unfold binary_step. blind_step. Qed.

(** X18.  A run depends on the configuration file only through the
    document [loadExistingConfig] reads from it.  Two runs that differ in
    the file alone, with the same document loaded (an absent file, an
    unreadable one and one that holds [null] all load as [null]), end the
    same way with the same effects and the same answers left; if they
    complete they leave the same file, and otherwise each leaves its own
    file as it was. *)
Theorem run_reads_file_once (w : World) (f1 f2 : File) :
  loadExistingConfig f1 = loadExistingConfig f2 ->
  let r1 := run newURL env (with_file f1 w) in
  let r2 := run newURL env (with_file f2 w) in
  fst r1 = fst r2
  /\ w_trace (snd r1) = w_trace (snd r2)
  /\ w_answers (snd r1) = w_answers (snd r2)
  /\ (fst r1 = Completed -> w_file (snd r1) = w_file (snd r2))
  /\ (fst r1 <> Completed -> w_file (snd r1) = f1 /\ w_file (snd r2) = f2).
Proof.
  intros L r1 r2.
  set (rest := fun d : JSON =>
    bind (gather newURL env (getExistingAzureSettings d)) (fun g0 =>
    bind (verify newURL env g0) (fun g =>
    bind (emit (EMkdir ConfigDir)) (fun _ =>
      match merge d (g_baseUrl g) (g_apiKey g) (g_deployment g) (g_apiVersion g) with
      | None => throw
      | Some config =>
          bind (mcp_step env config) (fun config' =>
          bind (write_config config') (fun _ => binary_step env))
      end)))).
  assert (U : forall f, run newURL env (with_file f w) =
                        match rest (loadExistingConfig f) (after_fetch (with_file f w)) with
                        | Go _ w' => (Completed, w')
                        | Halt o w' => (o, w')
                        end) by (intro f; apply run_unfold).
  (* what [rest d] does under a change of file *)
  assert (K : forall d f w0,
            match rest d w0, rest d (with_file f w0) with
            | Go _ wa, Go _ wb =>
                w_trace wa = w_trace wb /\ w_answers wa = w_answers wb
                /\ w_file wa = w_file wb
            | Halt o wa, Halt o' wb =>
                o = o' /\ o <> Completed /\ w_trace wa = w_trace wb
                /\ w_answers wa = w_answers wb
                /\ w_file wa = w_file w0 /\ w_file wb = f
            | _, _ => False
            end).
  { intros d f w0. unfold rest.
    rewrite (bind_blind _ _ f w0 (blind_gather _)), bind_unfold.
    pose proof (only_gather newURL env (getExistingAzureSettings d) w0) as Og.
    cbv zeta in Og.
    destruct (gather newURL env (getExistingAzureSettings d) w0) as [g0 wg|o wg] eqn:Eg.
    2:{ split; [reflexivity|]. split; [exact (short_gather _ _ _ _ _ _ Eg)|].
        repeat split; try reflexivity. exact (proj1 Og). }
    rewrite (bind_blind _ _ f wg (blind_verify _)), bind_unfold.
    pose proof (only_verify newURL env g0 wg) as Ov. cbv zeta in Ov.
    destruct (verify newURL env g0 wg) as [g wv|o wv] eqn:Ev.
    2:{ split; [reflexivity|]. split; [exact (short_verify _ _ _ _ _ _ Ev)|].
        repeat split; try reflexivity. rewrite (proj1 Ov). exact (proj1 Og). }
    rewrite (bind_blind _ _ f wv (blind_emit _)), bind_unfold.
    unfold emit.
    destruct (merge _ _ _ _ _) as [config|].
    2:{ cbn. split; [reflexivity|]. split; [discriminate|].
        repeat split; try reflexivity. rewrite (proj1 Ov). exact (proj1 Og). }
    rewrite (bind_blind _ _ f _ (blind_mcp_step _)), bind_unfold.
    destruct (mcp_step_returns env config
                (mkWorld (w_answers wv) (w_net wv) (w_file wv)
                         (EMkdir ConfigDir :: w_trace wv))) as (c' & w1 & ->).
    unfold bind, write_config. cbn [with_file w_answers w_net w_file w_trace].
    destruct (binary_step_returns env
                (mkWorld (w_answers w1) (w_net w1) (persist c')
                         (EWriteFile ConfigPath :: w_trace w1))) as (w2 & ->).
    repeat split. }
  unfold r1, r2. rewrite !U, <- L.
  specialize (K (loadExistingConfig f1) f2 (after_fetch (with_file f1 w))).
  change (with_file f2 (after_fetch (with_file f1 w)))
    with (after_fetch (with_file f2 w)) in K.
  destruct (rest (loadExistingConfig f1) (after_fetch (with_file f1 w))) as [u wa|o wa];
    destruct (rest (loadExistingConfig f1) (after_fetch (with_file f2 w))) as [u' wb|o' wb];
    try contradiction; cbn [fst snd].
  - destruct K as (T & A & F). repeat split; auto;
      match goal with H : Completed <> Completed |- _ => now elim H end.
  - destruct K as (-> & N & T & A & F1 & F2). repeat split; auto. contradiction.
Qed.

End FileOnce.

Lemma run_reads_file_once_witness :
  let env := mkEnv true true hardcoded_defaults "/m" true false NoAsset in
  fst (run Url.parse env (mkWorld [] [] (Garbage "{") []))
  = fst (run Url.parse env (mkWorld [] [] NoFile [])).
Proof.
  intro env.
  exact (proj1 (run_reads_file_once Url.parse env (mkWorld [] [] NoFile [])
                  (Garbage "{") NoFile eq_refl)).
Defined.

(** *** Keeping what is stored *)

(** X16.  With prompts allowed and a stored endpoint and key, pressing
    Enter at the endpoint prompt, or typing the stored base URL again, and
    pressing Enter at the key prompt keeps every stored value: the
    gathering stage ends with the stored base URL, deployment, version and
    key, after these two prompts only (the deployment is not asked), the
    key prompt showing the masked stored key. *)
Theorem reuse_keeps_stored_values (newURL : string -> option Url.t) (env : Env)
    (w w0 : World) (ex : Settings) (answer key : string) (rest : list Answer) :
  nonInteractive env = false ->
  prior w = Some ex ->
  Doc.truthy (s_baseUrl ex) = true ->
  s_apiKey ex = JStr key -> key <> "" ->
  answer = "" \/ s_baseUrl ex = JStr answer ->
  w_answers w0 = Typed answer :: Typed "" :: rest ->
  gather newURL env (prior w) w0 =
    Go (mkGathered (s_baseUrl ex) (s_deployment ex) (s_apiVersion ex) (JStr key))
       (mkWorld rest (w_net w0) (w_file w0)
          (ESecret "API Key" (Some (masked key))
           :: EQuestion "Endpoint" (s_baseUrl ex) :: w_trace w0)).
Proof.
  intros N P Tb K Kn Ans A.
  destruct (prior_values _ _ P) as (Td & _).
  assert (Kept : kept_endpoint answer (s_baseUrl ex) = true).
  { unfold kept_endpoint. destruct Ans as [-> | ->]; [reflexivity|].
    rewrite String.eqb_refl. apply orb_true_r. }
  destruct w0 as [ans net file tr]. cbn [w_answers] in A. subst ans.
  unfold gather. rewrite P, N. cbn [andb negb prior_baseUrl option_map Doc.truthy_opt].
  rewrite Tb.
  unfold gather_reuse, askPassword, question, bind, emit, next_answer, ret.
  cbn [w_answers w_net w_file w_trace]. rewrite Kept, K.
  repeat first
    [ rewrite (nonempty_true _ Kn)
    | rewrite (nonempty_true _ Td)
    | rewrite String.eqb_refl
    | progress cbn [Doc.or_else Doc.truthy masked_value w_answers w_net w_file w_trace
                    Js.nonempty negb andb g_deployment g_baseUrl g_apiVersion g_apiKey] ].
  reflexivity.
Qed.

Lemma reuse_keeps_stored_values_witness :
  let config :=
    JObj [("provider",
           JObj [("azure",
                  JObj [("options",
                         JObj [("baseURL", JStr "https://h.example/openai");
                               ("apiKey", JStr "0123456789abcdef");
                               ("apiVersion", JStr "v9")]);
                        ("models", JObj [("mine", JNull)])])])] in
  gather Url.parse (mkEnv false true hardcoded_defaults "/m" true false NoAsset)
         (prior (mkWorld [] [] (Document config) []))
         (mkWorld [Typed "https://h.example/openai"; Typed ""] [] (Document config) [])
  = Go (mkGathered (JStr "https://h.example/openai") "mine" (JStr "v9")
                   (JStr "0123456789abcdef"))
       (mkWorld [] [] (Document config)
          [ESecret "API Key" (Some "0123...cdef");
           EQuestion "Endpoint" (JStr "https://h.example/openai")]).
Proof.
  intro config.
  refine (reuse_keeps_stored_values Url.parse
    (mkEnv false true hardcoded_defaults "/m" true false NoAsset)
    (mkWorld [] [] (Document config) [])
    (mkWorld [Typed "https://h.example/openai"; Typed ""] [] (Document config) [])
    (mkSettings (JStr "https://h.example/openai") (JStr "0123456789abcdef") "mine"
                (JStr "v9"))
    "https://h.example/openai" "0123456789abcdef" []
    eq_refl eq_refl eq_refl eq_refl _ (or_intror eq_refl) eq_refl).
  discriminate.
Defined.

End RunFacts.

(* ===================================================================== *)
(** * The masked prompt: long keys *)
(* ===================================================================== *)

Module MaskFacts.

Import JsFacts.

Lemma substring_length_exact (n m : nat) (s : string) :
  n + m <= String.length s -> String.length (substring n m s) = m.
Proof.
  revert n m; induction s as [|c s IH]; intros n m L; simpl in L.
  - destruct n, m; simpl; lia.
  - destruct n as [|n]; simpl.
    + destruct m as [|m]; simpl; [reflexivity|]. rewrite (IH 0 m); lia.
    + apply IH. lia.
Qed.

(** X19.  For a stored key of twelve characters or more, the text the
    key prompt shows is eleven characters long and does not contain the
    key. *)
Theorem masked_key_hidden (key : string) :
  12 <= String.length key ->
  String.length (masked key) = 11 /\ Js.includes (masked key) key = false.
Proof.
  intro L. split.
  - unfold masked, Js.slice_to, Js.slice_last. rewrite !length_append.
    rewrite !substring_length_exact by lia. reflexivity.
  - exact (Masking.masked_hides_long_key key L).
Qed.

Lemma masked_key_hidden_witness :
  Js.includes (masked "0123456789abcdef") "0123456789abcdef" = false.
Proof.
  apply (masked_key_hidden "0123456789abcdef"). simpl. lia.
Defined.

End MaskFacts.
